(** * Configuration resolution and test-data materialization

    A shallow embedding of [ui_automation/core/config_loader.py]
    ([ConfigLoader]), [ui_automation/utils/data_loader.py] ([DataLoader])
    and the part of [ui_automation/__main__.py] that uses the configuration
    loader, with the properties of the two loaders and of [main] stated and
    proved over it.

    The Python code is effectful: it consults the file system, writes log
    records, raises exceptions and mutates [self.config_cache].  All of that
    is explicit here: a computation is a function from an interpreter
    [state] to a [result] and a new state, the file system is a finite map
    from paths to nodes, and every [os.path.exists] and [open] leaves an
    event in the state's trace. *)

From Stdlib Require Import String Ascii ZArith Lia.
From stdpp Require Import base option list strings gmap pretty.

Set Warnings "-register-all".

(** * Python values *)

(** Keys of a mapping.  JSON object keys are strings; [csv.DictReader] files
    the surplus fields of a long row under the key [None].  Other hashable
    YAML keys (numbers, booleans) are outside the model. *)
Inductive pykey :=
| KNone
| KStr (s : string).

#[global] Instance pykey_eq_dec : EqDecision pykey.
Proof. solve_decision. Defined.

(** What [yaml.safe_load], [json.load] and [csv.DictReader] hand back.  A
    [dict] keeps insertion order, so it is a list of entries; [d[k]] reads
    the first entry with key [k].  Floats are outside the model. *)
Inductive pyval :=
| PNone
| PBool (b : bool)
| PInt (z : Z)
| PStr (s : string)
| PList (items : list pyval)
| PDict (entries : list (pykey * pyval)).

Abbreviation pydict := (list (pykey * pyval)).
Abbreviation pytuple := (list pyval).

(** [isinstance(v, list)] *)
Definition isinstance_list (v : pyval) : bool :=
  match v with PList _ => true | _ => false end.

(** [type(v).__name__] *)
Definition type_name (v : pyval) : string :=
  match v with
  | PNone => "NoneType"
  | PBool _ => "bool"
  | PInt _ => "int"
  | PStr _ => "str"
  | PList _ => "list"
  | PDict _ => "dict"
  end.

(** [list(d.keys())] on a dict. *)
Definition dict_keys (d : pydict) : list pykey := d.*1.

Fixpoint dict_get (d : pydict) (k : pykey) : option pyval :=
  match d with
  | [] => None
  | (k', v) :: d' => if decide (k' = k) then Some v else dict_get d' k
  end.

(** * Exceptions *)

(** An exception raised inside [open], [yaml], [json] or [csv]: its class
    name and its [str()]. *)
Record lib_exn := LibExn { exc_class : string; exc_str : string }.

Inductive exn :=
| FileNotFoundError (msg : string)
| ValueError (msg : string)
| KeyError (key : pykey)
| TypeError (subscripted : string)
| AttributeError (of_type attr : string)
| LibraryError (e : lib_exn).

(** Does [except FileNotFoundError] catch it? *)
Definition is_FileNotFoundError (e : exn) : bool :=
  match e with
  | FileNotFoundError _ => true
  | LibraryError le => String.eqb (exc_class le) "FileNotFoundError"
  | _ => false
  end.

Inductive result (A : Type) :=
| Ok (a : A)
| Raise (e : exn).
Arguments Ok {A} a.
Arguments Raise {A} e.

(** * Interpreter state *)

(** A reference to an object.  [None] is a singleton; every other parsed
    document is a fresh heap object, so that "the identical object" can be
    told apart from "an equal object". *)
Inductive ref :=
| NoneRef
| Ref (l : nat).

#[global] Instance ref_eq_dec : EqDecision ref.
Proof. solve_decision. Defined.

Inductive fs_event :=
| Probe (path : string)      (* os.path.exists(path) *)
| Open (path : string).       (* open(path, 'r') *)

#[global] Instance fs_event_eq_dec : EqDecision fs_event.
Proof. solve_decision. Defined.

Inductive level := INFO | ERROR.

Record state := State {
  config_cache : gmap string ref;      (* self.config_cache *)
  heap : list pyval;                   (* objects built by the parsers *)
  trace : list fs_event;               (* file-system calls, oldest first *)
  log : list (level * string)          (* self.logger records, oldest first *)
}.

Definition set_cache (f : gmap string ref → gmap string ref) (st : state) :=
  State (f (config_cache st)) (heap st) (trace st) (log st).
Definition set_heap (f : list pyval → list pyval) (st : state) :=
  State (config_cache st) (f (heap st)) (trace st) (log st).
Definition set_trace (f : list fs_event → list fs_event) (st : state) :=
  State (config_cache st) (heap st) (f (trace st)) (log st).
Definition set_log (f : list (level * string) → list (level * string)) (st : state) :=
  State (config_cache st) (heap st) (trace st) (f (log st)).

(** The state of a process that has just built its loader. *)
Definition fresh : state := State ∅ [] [] [].

Definition deref (st : state) (r : ref) : option pyval :=
  match r with
  | NoneRef => Some PNone
  | Ref l => heap st !! l
  end.

(** * The state-and-exception monad *)

Definition M (A : Type) : Type := state → result A * state.

Definition ret {A} (a : A) : M A := λ st, (Ok a, st).
Definition raise {A} (e : exn) : M A := λ st, (Raise e, st).
Definition bind {A B} (m : M A) (k : A → M B) : M B :=
  λ st, match m st with
        | (Ok a, st') => k a st'
        | (Raise e, st') => (Raise e, st')
        end.

(** [try: m  except Exception as e: h e]; what [m] did to the state before
    raising stays done. *)
Definition try_except {A} (m : M A) (h : exn → M A) : M A :=
  λ st, match m st with
        | (Ok a, st') => (Ok a, st')
        | (Raise e, st') => h e st'
        end.

Notation "'let*' x ':=' m 'in' k" := (bind m (λ x, k))
  (at level 10, x name, m at level 100, k at level 200,
   format "'[v' 'let*'  x  ':='  m  'in' '/' k ']'").
Notation "m ';;' k" := (bind m (λ _, k))
  (at level 100, k at level 200, right associativity).

Definition logger_info (msg : string) : M unit :=
  λ st, (Ok (), set_log (λ l, l ++ [(INFO, msg)]) st).
Definition logger_error (msg : string) : M unit :=
  λ st, (Ok (), set_log (λ l, l ++ [(ERROR, msg)]) st).

(** The object a parser returned enters the heap, at the next free
    location; [None] is already there. *)
Definition new_ref (v : pyval) (st : state) : ref :=
  match v with
  | PNone => NoneRef
  | _ => Ref (length (heap st))
  end.

Definition store (v : pyval) (st : state) : state :=
  match v with
  | PNone => st
  | _ => set_heap (λ h, h ++ [v]) st
  end.

Definition alloc (v : pyval) : M ref :=
  λ st, (Ok (new_ref v st), store v st).

(** * The file system *)

(** A path that exists holds something [open] can read, or something on
    which [open] raises (a directory, a file without read permission). *)
Inductive node :=
| Readable (content : string)
| Unreadable (e : lib_exn).

Abbreviation filesystem := (gmap string node).

Definition os_path_exists (fs : filesystem) (path : string) : M bool :=
  λ st, (Ok (bool_decide (is_Some (fs !! path))),
         set_trace (λ t, t ++ [Probe path]) st).

Definition no_such_file (path : string) : lib_exn :=
  LibExn "FileNotFoundError"
         ("[Errno 2] No such file or directory: '" +:+ path +:+ "'").

(** [open(path, 'r')] followed by reading the stream to its end. *)
Definition read_file (fs : filesystem) (path : string) : lib_exn + string :=
  match fs !! path with
  | Some (Readable content) => inr content
  | Some (Unreadable e) => inl e
  | None => inl (no_such_file path)
  end.

Definition open_ (path : string) : M unit :=
  λ st, (Ok (), set_trace (λ t, t ++ [Open path]) st).

(** * Strings and paths *)

Definition startswith (s pre : string) : bool := String.prefix pre s.

Definition endswith (s suf : string) : bool :=
  String.prefix (String.rev suf) (String.rev s).

Definition lower_ascii (c : ascii) : ascii :=
  let n := nat_of_ascii c in
  if (65 <=? n)%nat && (n <=? 90)%nat then ascii_of_nat (n + 32) else c.

(** [s.lower()] on the ASCII letters, which is all that the extension tests
    of the loaders can observe. *)
Fixpoint lower (s : string) : string :=
  match s with
  | EmptyString => EmptyString
  | String c s' => String (lower_ascii c) (lower s')
  end.

(** [os.path.join(a, b)] of [posixpath]. *)
Definition os_path_join (a b : string) : string :=
  if startswith b "/" then b
  else if String.eqb a "" || endswith a "/" then a +:+ b
  else a +:+ "/" +:+ b.

(** What a parser makes of the outcome of reading a file. *)
Definition parse_with {A} (parse : string → lib_exn + A)
    (read : lib_exn + string) : lib_exn + A :=
  match read with
  | inl e => inl e
  | inr content => parse content
  end.

Definition lift {A} (r : result A) : M A := λ st, (r, st).

(** * [ConfigLoader] *)

Module ConfigLoader.
Section code.
(** [yaml.safe_load] sees the stream, whose name is the path, and its
    content; [json.load] only reads the content. *)
Variable yaml_safe_load : string → string → lib_exn + pyval.
Variable json_load : string → lib_exn + pyval.

(** [__init__]: [config_dir or <package>/config]; the cache starts
    empty (see [fresh]). *)
Definition init (config_dir : option string) (package_config : string) : string :=
  match config_dir with
  | Some d => if String.eqb d "" then package_config else d
  | None => package_config
  end.

Variable config_dir : string.
Variable fs : filesystem.

Definition _load_yaml (file_path : string) : M ref :=
  open_ file_path;;
  match parse_with (yaml_safe_load file_path) (read_file fs file_path) with
  | inr data =>
      let* r := alloc data in
      logger_info ("Loaded YAML configuration from " +:+ file_path);;
      ret r
  | inl e =>
      logger_error ("Failed to load YAML configuration from " +:+ file_path
                    +:+ ": " +:+ exc_str e);;
      raise (LibraryError e)
  end.

Definition _load_json (file_path : string) : M ref :=
  open_ file_path;;
  match parse_with json_load (read_file fs file_path) with
  | inr data =>
      let* r := alloc data in
      logger_info ("Loaded JSON configuration from " +:+ file_path);;
      ret r
  | inl e =>
      logger_error ("Failed to load JSON configuration from " +:+ file_path
                    +:+ ": " +:+ exc_str e);;
      raise (LibraryError e)
  end.

(** Returns [NoneRef] for Python's [None]. *)
Definition _try_load_config (config_name : string) : M ref :=
  let yaml_path := os_path_join config_dir (config_name +:+ ".yaml") in
  let* found := os_path_exists fs yaml_path in
  if found : bool then _load_yaml yaml_path else
  let yml_path := os_path_join config_dir (config_name +:+ ".yml") in
  let* found := os_path_exists fs yml_path in
  if found : bool then _load_yaml yml_path else
  let json_path := os_path_join config_dir (config_name +:+ ".json") in
  let* found := os_path_exists fs json_path in
  if found : bool then _load_json json_path else
  ret NoneRef.

Definition cache_key (config_name environment : string) : string :=
  config_name +:+ "_" +:+ environment.

Definition not_found (config_name environment : string) : exn :=
  FileNotFoundError ("Configuration file not found for " +:+ config_name
                     +:+ " (" +:+ environment +:+ ")").

Definition load_config (config_name environment : string) : M ref :=
  λ st,
  match config_cache st !! cache_key config_name environment with
  | Some cached => (Ok cached, st)
  | None =>
    (let* config_data := _try_load_config (config_name +:+ "_" +:+ environment) in
     let* config_data :=
       if bool_decide (config_data = NoneRef)
          && negb (String.eqb environment "default")
       then _try_load_config config_name
       else ret config_data in
     if bool_decide (config_data = NoneRef)
     then raise (not_found config_name environment)
     else
       (λ st', (Ok config_data,
                set_cache <[cache_key config_name environment := config_data]> st'))
    ) st
  end.

(** The value of the [environment] parameter when the caller omits it. *)
Definition default_environment : string := "default".

Definition get_browser_config (environment : string) : M ref :=
  load_config "browser" environment.

Definition get_test_config (environment : string) : M ref :=
  load_config "test" environment.

(** [config.get('base_url', '')] on the object [load_config] returned.  Any
    value stored under the key is returned as it is; an object that is not a
    [dict] has no [get].  (A reference outside the heap, which no state
    reached from [fresh] holds, is read as [None].) *)
Definition get_environment_url (environment : string) : M pyval :=
  let* config := load_config "environment" environment in
  λ st,
  match default PNone (deref st config) with
  | PDict d => (Ok (default (PStr "") (dict_get d (KStr "base_url"))), st)
  | v => (Raise (AttributeError (type_name v) "get"), st)
  end.
End code.
End ConfigLoader.

(** * [DataLoader] *)

(** [v.keys()], as a list *)
Definition py_keys (v : pyval) : result (list pykey) :=
  match v with
  | PDict d => Ok (dict_keys d)
  | _ => Raise (AttributeError (type_name v) "keys")
  end.

(** [row[col]] on a dict *)
Definition dict_getitem (d : pydict) (k : pykey) : result pyval :=
  match dict_get d k with
  | Some v => Ok v
  | None => Raise (KeyError k)
  end.

(** [item[key]] for a key that is a string or [None]: only a dict can be
    subscripted with it. *)
Definition py_getitem (item : pyval) (k : pykey) : result pyval :=
  match item with
  | PDict d => dict_getitem d k
  | _ => Raise (TypeError (type_name item))
  end.

(** [tuple(item[key] for key in keys)]: the generator is consumed from the
    left and stops at the first lookup that raises. *)
Fixpoint tuple_of (getitem : pykey → result pyval) (keys : list pykey)
    : result pytuple :=
  match keys with
  | [] => Ok []
  | key :: keys' =>
      match getitem key with
      | Raise e => Raise e
      | Ok v =>
          match tuple_of getitem keys' with
          | Raise e => Raise e
          | Ok t => Ok (v :: t)
          end
      end
  end.

(** [for item in items: result.append(mk item)].  When the body raises,
    the loop is left with the exception and with [result] as it stands at
    that moment. *)
Fixpoint for_append {A} (mk : A → result pytuple) (items : list A)
    (result : list pytuple) : exn * list pytuple + list pytuple :=
  match items with
  | [] => inr result
  | item :: items' =>
      match mk item with
      | Raise e => inl (e, result)
      | Ok t => for_append mk items' (result ++ [t])
      end
  end.

(** Leaving the function: the local [result] is returned, or lost when an
    exception unwinds the frame. *)
Definition leave (r : exn * list pytuple + list pytuple) : result (list pytuple) :=
  match r with
  | inl (e, _) => Raise e
  | inr result => Ok result
  end.

Module DataLoader.
Section code.
Variable csv_DictReader : string → lib_exn + list pydict.
Variable json_load : string → lib_exn + pyval.
Variable yaml_safe_load : string → string → lib_exn + pyval.

Variable data_dir : string.
Variable fs : filesystem.

Definition _get_file_path (file_name : string) (extension : option string)
    : M string :=
  let file_name :=
    match extension with
    | Some ext =>
        if negb (String.eqb ext "") && negb (endswith (lower file_name) ext)
        then file_name +:+ ext else file_name
    | None => file_name
    end in
  let file_path := os_path_join data_dir file_name in
  let* found := os_path_exists fs file_path in
  if negb found then raise (FileNotFoundError ("File not found: " +:+ file_path))
  else ret file_path.

Definition load_csv (file_name : string) : M (list pydict) :=
  let* file_path := _get_file_path file_name (Some ".csv") in
  open_ file_path;;
  match parse_with csv_DictReader (read_file fs file_path) with
  | inr data =>
      logger_info ("Loaded " +:+ pretty (length data)
                   +:+ " rows from CSV file: " +:+ file_path);;
      ret data
  | inl e =>
      if String.eqb (exc_class e) "FileNotFoundError"
      then logger_error ("CSV file not found: " +:+ file_path);;
           raise (LibraryError e)
      else logger_error ("Failed to load CSV file " +:+ file_path
                         +:+ ": " +:+ exc_str e);;
           raise (LibraryError e)
  end.

Definition load_json (file_name : string) : M pyval :=
  let* file_path := _get_file_path file_name (Some ".json") in
  open_ file_path;;
  match parse_with json_load (read_file fs file_path) with
  | inr data =>
      logger_info ("Loaded JSON data from file: " +:+ file_path);;
      ret data
  | inl e =>
      if String.eqb (exc_class e) "FileNotFoundError"
      then logger_error ("JSON file not found: " +:+ file_path);;
           raise (LibraryError e)
      else logger_error ("Failed to load JSON file " +:+ file_path
                         +:+ ": " +:+ exc_str e);;
           raise (LibraryError e)
  end.

Definition except_FileNotFoundError {A} (m : M A) (h : M A) : M A :=
  try_except m (λ e, if is_FileNotFoundError e then h else raise e).

Definition load_yaml (file_name : string) : M pyval :=
  let* file_path :=
    except_FileNotFoundError (_get_file_path file_name (Some ".yaml"))
      (except_FileNotFoundError (_get_file_path file_name (Some ".yml"))
         (logger_error ("YAML file not found: " +:+ file_name);;
          raise (FileNotFoundError ("YAML file not found: " +:+ file_name)))) in
  open_ file_path;;
  match parse_with (yaml_safe_load file_path) (read_file fs file_path) with
  | inr data =>
      logger_info ("Loaded YAML data from file: " +:+ file_path);;
      ret data
  | inl e =>
      logger_error ("Failed to load YAML file " +:+ file_path
                    +:+ ": " +:+ exc_str e);;
      raise (LibraryError e)
  end.

Definition _load_test_data_from_csv (file_name : string) : M (list pytuple) :=
  let* data := load_csv file_name in
  match data with
  | [] => ret []
  | first :: _ =>
      let columns := dict_keys first in
      lift (leave (for_append (λ row, tuple_of (dict_getitem row) columns) data []))
  end.

Definition _load_test_data_from_json (file_name : string) : M (list pytuple) :=
  let* data := load_json file_name in
  match data with
  | PList [] => ret []
  | PList ((first :: _) as items) =>
      let* keys := lift (py_keys first) in
      lift (leave (for_append (λ item, tuple_of (py_getitem item) keys) items []))
  | _ =>
      raise (ValueError ("JSON test data must be a list of objects: " +:+ file_name))
  end.

Definition _load_test_data_from_yaml (file_name : string) : M (list pytuple) :=
  let* data := load_yaml file_name in
  match data with
  | PList [] => ret []
  | PList ((first :: _) as items) =>
      let* keys := lift (py_keys first) in
      lift (leave (for_append (λ item, tuple_of (py_getitem item) keys) items []))
  | _ =>
      raise (ValueError ("YAML test data must be a list of objects: " +:+ file_name))
  end.

Definition load_test_data (file_name : string) : M (list pytuple) :=
  if endswith (lower file_name) ".csv" then _load_test_data_from_csv file_name
  else if endswith (lower file_name) ".json" then _load_test_data_from_json file_name
  else if endswith (lower file_name) ".yaml" || endswith (lower file_name) ".yml"
  then _load_test_data_from_yaml file_name
  else raise (ValueError ("Unsupported file format for test data: " +:+ file_name)).
End code.
End DataLoader.

(** * [__main__] *)

Module Main.
Section code.
Variable yaml_safe_load : string → string → lib_exn + pyval.
Variable json_load : string → lib_exn + pyval.

(** [<package>/config], the directory of a [ConfigLoader()] built without
    an argument. *)
Variable package_config : string.
Variable fs : filesystem.

(** [BrowserFactory().create_browser(browser_type=..., headless=...)], which
    drives Selenium and may raise anything; [os.path.abspath], which depends
    on the working directory; [str(e)] of an exception. *)
Variable create_browser : string → bool → M unit.
Variable os_path_abspath : string → string.
Variable str : exn → string.

(** The attributes of [args] that [main] reads once logging is set up; an
    option that was not given is [None]. *)
Record args := Args {
  browser : string;
  headless : bool;
  env : string;
  config : option string
}.

(** [if args.config:] holds for a string that is not empty. *)
Definition truthy (config : option string) : bool :=
  match config with
  | Some path => negb (String.eqb path "")
  | None => false
  end.

(** [config_loader = ConfigLoader()]: from here on the loader is a new one,
    whose cache is empty. *)
Definition new_ConfigLoader : M string :=
  λ st, (Ok (ConfigLoader.init None package_config), set_cache (λ _, ∅) st).

(** [main] from [logger.info("Starting UI Automation Framework")] on: the
    arguments are parsed and logging is set up ([--log-level] only serves
    that).  The value is the exit code.  The handler is [except Exception]:
    [exn] stands for instances of [Exception], which is what the loaders
    raise; a [KeyboardInterrupt] or [SystemExit] reaching [main] while the
    browser starts, which that handler lets through, is outside the
    model. *)
Definition main (a : args) : M Z :=
  logger_info "Starting UI Automation Framework";;
  try_except
    (let* config_dir := new_ConfigLoader in
     (if truthy (config a)
      then logger_info ("Loading custom config from "
                        +:+ os_path_abspath (default "" (config a)))
      else
        logger_info ("Loading default config for environment: " +:+ env a);;
        ConfigLoader.get_browser_config yaml_safe_load json_load config_dir fs (env a);;
        ConfigLoader.get_test_config yaml_safe_load json_load config_dir fs (env a);;
        ret ());;
     create_browser (browser a) (headless a);;
     logger_info "UI Automation Framework completed successfully";;
     ret 0%Z)
    (λ e,
     logger_error ("UI Automation Framework failed: " +:+ str e);;
     ret 1%Z).
End code.
End Main.

(** * Fixtures

    A handful of documents with what the real parsers return on them, and
    directories built from them.  The tables are finite fragments of the
    graphs of [yaml.safe_load], [json.load] and [csv.DictReader]; a document
    outside a table is answered with an [Unmodelled] exception, which no
    example below relies on. *)

Module Fixtures.
Definition dq : string := String (ascii_of_nat 34) EmptyString.
Definition nl : string := String (ascii_of_nat 10) EmptyString.

Definition unmodelled : lib_exn := LibExn "Unmodelled" "".

Definition row (a b : string) : pydict := [(KStr "a", PStr a); (KStr "b", PStr b)].
Definition rows_12_34 : list pydict := [row "1" "2"; row "3" "4"].

(** [browser: chrome] *)
Definition chrome : pyval := PDict [(KStr "browser", PStr "chrome")].
(** [browser: firefox] *)
Definition firefox : pyval := PDict [(KStr "browser", PStr "firefox")].

(** JSON text of an object with string fields. *)
Definition json_field (k v : string) : string :=
  dq +:+ k +:+ dq +:+ ": " +:+ dq +:+ v +:+ dq.
Definition json_row_ab (a b : string) : string :=
  "{" +:+ json_field "a" a +:+ ", " +:+ json_field "b" b +:+ "}".

Definition json_rows : string :=
  "[" +:+ json_row_ab "1" "2" +:+ ", " +:+ json_row_ab "3" "4" +:+ "]".
Definition json_short_second : string :=
  "[" +:+ json_row_ab "1" "2" +:+ ", {" +:+ json_field "a" "3" +:+ "}]".
Definition json_object : string := json_row_ab "1" "2".
Definition json_chrome : string := "{" +:+ json_field "browser" "chrome" +:+ "}".
Definition json_garbage : string := "oops".

Definition yaml_rows : string := "[{a: '1', b: '2'}, {a: '3', b: '4'}]".
Definition yaml_short_second : string := "[{a: '1', b: '2'}, {a: '3'}]".
Definition yaml_object : string := "{a: '1', b: '2'}".
Definition yaml_chrome : string := "browser: chrome".
Definition yaml_firefox : string := "browser: firefox".
Definition yaml_empty : string := "".

Definition csv_rows : string := "a,b" +:+ nl +:+ "1,2" +:+ nl +:+ "3,4" +:+ nl.

Definition json_load (content : string) : lib_exn + pyval :=
  if String.eqb content json_rows then inr (PList (PDict <$> rows_12_34))
  else if String.eqb content json_short_second
    then inr (PList [PDict (row "1" "2"); PDict [(KStr "a", PStr "3")]])
  else if String.eqb content json_object then inr (PDict (row "1" "2"))
  else if String.eqb content json_chrome then inr chrome
  else if String.eqb content "null" then inr PNone
  else if String.eqb content json_garbage
    then inl (LibExn "JSONDecodeError" "Expecting value: line 1 column 1 (char 0)")
  else inl unmodelled.

Definition yaml_safe_load (name content : string) : lib_exn + pyval :=
  if String.eqb content yaml_rows then inr (PList (PDict <$> rows_12_34))
  else if String.eqb content yaml_short_second
    then inr (PList [PDict (row "1" "2"); PDict [(KStr "a", PStr "3")]])
  else if String.eqb content yaml_object then inr (PDict (row "1" "2"))
  else if String.eqb content yaml_chrome then inr chrome
  else if String.eqb content yaml_firefox then inr firefox
  else if String.eqb content yaml_empty then inr PNone
  else inl unmodelled.

Definition csv_DictReader (content : string) : lib_exn + list pydict :=
  if String.eqb content csv_rows then inr rows_12_34
  else inl unmodelled.

Definition files (l : list (string * string)) : filesystem :=
  list_to_map (prod_map id Readable <$> l).

Definition load_config := ConfigLoader.load_config yaml_safe_load json_load "cfg".
Definition load_test_data :=
  DataLoader.load_test_data csv_DictReader json_load yaml_safe_load "data".
End Fixtures.

(** Further documents, for the examples of the later sections. *)

Module MoreFixtures.
Import Fixtures.

Definition json_number_first : string := "[1, {" +:+ json_field "a" "1" +:+ "}]".
Definition json_keyless_first : string := "[{}, 1, " +:+ dq +:+ "x" +:+ dq +:+ "]".
Definition json_number_second : string := "[{" +:+ json_field "a" "1" +:+ "}, 2]".

Definition json_load (content : string) : lib_exn + pyval :=
  if String.eqb content json_number_first
    then inr (PList [PInt 1; PDict [(KStr "a", PStr "1")]])
  else if String.eqb content json_keyless_first
    then inr (PList [PDict []; PInt 1; PStr "x"])
  else if String.eqb content json_number_second
    then inr (PList [PDict [(KStr "a", PStr "1")]; PInt 2])
  else Fixtures.json_load content.

Definition load_test_data :=
  DataLoader.load_test_data csv_DictReader json_load yaml_safe_load "data".

(** A browser factory whose browser starts, and one that knows no browser. *)
Definition browser_starts (browser_type : string) (headless : bool) : M unit :=
  ret ().
Definition browser_unknown (browser_type : string) (headless : bool) : M unit :=
  raise (ValueError ("Unsupported browser type: " +:+ browser_type)).

Definition os_path_abspath (path : string) : string := os_path_join "/work" path.

(** [str(e)] of the exceptions that carry their message. *)
Definition str (e : exn) : string :=
  match e with
  | FileNotFoundError msg | ValueError msg => msg
  | LibraryError le => exc_str le
  | _ => ""
  end.

Definition main :=
  Main.main yaml_safe_load Fixtures.json_load "cfg".
End MoreFixtures.

(** * Vocabulary of the statements *)

(** The three paths [_try_load_config] probes for a base name. *)
Definition candidate (config_dir config_name ext : string) : string :=
  os_path_join config_dir (config_name +:+ ext).

Definition candidates (config_dir config_name : string) : list string :=
  candidate config_dir config_name <$> [".yaml"; ".yml"; ".json"].

Inductive format := CSV | JSON | YAML.

Definition format_name (f : format) : string :=
  match f with CSV => "CSV" | JSON => "JSON" | YAML => "YAML" end.

(** The parser a configuration file is read with. *)
Inductive parser := AsYAML | AsJSON.

Definition parser_name (f : parser) : string :=
  match f with AsYAML => "YAML" | AsJSON => "JSON" end.

Definition parse_as (yaml_safe_load : string → string → lib_exn + pyval)
    (json_load : string → lib_exn + pyval) (f : parser) (path content : string)
    : lib_exn + pyval :=
  match f with
  | AsYAML => yaml_safe_load path content
  | AsJSON => json_load content
  end.

Definition load_as (yaml_safe_load : string → string → lib_exn + pyval)
    (json_load : string → lib_exn + pyval) (f : parser) (fs : filesystem)
    (path : string) : M ref :=
  match f with
  | AsYAML => ConfigLoader._load_yaml yaml_safe_load fs path
  | AsJSON => ConfigLoader._load_json json_load fs path
  end.

(** The first candidate that exists, with the parser its extension stands
    for. *)
Definition select (fs : filesystem) (config_dir config_name : string)
    : option (string * parser) :=
  if bool_decide (is_Some (fs !! candidate config_dir config_name ".yaml"))
  then Some (candidate config_dir config_name ".yaml", AsYAML)
  else if bool_decide (is_Some (fs !! candidate config_dir config_name ".yml"))
  then Some (candidate config_dir config_name ".yml", AsYAML)
  else if bool_decide (is_Some (fs !! candidate config_dir config_name ".json"))
  then Some (candidate config_dir config_name ".json", AsJSON)
  else None.

(** The [os.path.exists] calls made until a candidate is found. *)
Definition probes (fs : filesystem) (config_dir config_name : string)
    : list fs_event :=
  if bool_decide (is_Some (fs !! candidate config_dir config_name ".yaml"))
  then [Probe (candidate config_dir config_name ".yaml")]
  else if bool_decide (is_Some (fs !! candidate config_dir config_name ".yml"))
  then [Probe (candidate config_dir config_name ".yaml");
        Probe (candidate config_dir config_name ".yml")]
  else Probe <$> candidates config_dir config_name.

(** All the file-system calls of one [_try_load_config]. *)
Definition touched (fs : filesystem) (config_dir config_name : string)
    : list fs_event :=
  probes fs config_dir config_name ++
  match select fs config_dir config_name with
  | Some (path, _) => [Open path]
  | None => []
  end.

Definition event_path (ev : fs_event) : string :=
  match ev with Probe p => p | Open p => p end.

(** A later state of the same process: what was cached is still cached,
    what was on the heap is still there. *)
Definition extends (st st' : state) : Prop :=
  config_cache st ⊆ config_cache st' ∧ heap st `prefix_of` heap st'.

(** The paths a trace opened, in order, with repetitions. *)
Definition opened (t : list fs_event) : list string :=
  omap (λ ev, match ev with Open p => Some p | Probe _ => None end) t.

(** The pair has a file to be loaded from: one for
    [{name}_{environment}], or one for [{name}] when the environment is not
    ["default"]. *)
Definition resolves (fs : filesystem) (config_dir config_name environment : string)
    : Prop :=
  select fs config_dir (config_name +:+ "_" +:+ environment) ≠ None
  ∨ (environment ≠ "default" ∧ select fs config_dir config_name ≠ None).

(** A caller's use of one loader instance: calls made one after the other,
    each against the file system as it is then; an exception ends the call,
    not the sequence. *)
Record call := Call {
  call_fs : filesystem;
  call_name : string;
  call_environment : string
}.

Fixpoint run_calls (load : filesystem → string → string → M ref)
    (calls : list call) (st : state) : state :=
  match calls with
  | [] => st
  | c :: calls' =>
      run_calls load calls' (load (call_fs c) (call_name c) (call_environment c) st).2
  end.

(** Does [sub] occur in [s]? *)
Fixpoint occurs_in (sub s : string) : bool :=
  String.prefix sub s ||
  match s with
  | EmptyString => false
  | String _ s' => occurs_in sub s'
  end.

(** The canonical column order: the keys of the first record. *)
Definition columns (records : list pydict) : list pykey :=
  match records with
  | [] => []
  | first :: _ => dict_keys first
  end.

(** The records of a parsed document, as the data loader sees them. *)
Definition as_document (records : list pydict) : pyval := PList (PDict <$> records).

(** The tuples of a sequence of records, in the words of the design: for
    every record, in order, read each key of the canonical column order from
    that record; the first lookup that fails ends everything. *)
Fixpoint each_tuple (keys : list pykey) (records : list pydict)
    : result (list pytuple) :=
  match records with
  | [] => Ok []
  | record :: records' =>
      match tuple_of (dict_getitem record) keys with
      | Raise e => Raise e
      | Ok t =>
          match each_tuple keys records' with
          | Raise e => Raise e
          | Ok ts => Ok (t :: ts)
          end
      end
  end.

Definition materialize (records : list pydict) : result (list pytuple) :=
  each_tuple (columns records) records.

(** A record has a value for each of the keys. *)
Definition has_keys (keys : list pykey) (record : pydict) : Prop :=
  Forall (λ k, is_Some (dict_get record k)) keys.

#[global] Instance has_keys_dec keys record : Decision (has_keys keys record).
Proof. unfold has_keys. apply _. Defined.

(** A tuple holds the record's values for the keys, position by position. *)
Definition aligned (keys : list pykey) (record : pydict) (t : pytuple) : Prop :=
  Forall2 (λ k v, dict_get record k = Some v) keys t.

(** The file named [file_name] is of the given format by its extension, and
    that format's loader, run in [st], has returned the document and left
    the state [st']. *)
Inductive parsed (csv_DictReader : string → lib_exn + list pydict)
    (json_load : string → lib_exn + pyval)
    (yaml_safe_load : string → string → lib_exn + pyval)
    (data_dir : string) (fs : filesystem) (file_name : string) (st : state)
    : format → pyval → state → Prop :=
| parsed_csv rows st' :
    endswith (lower file_name) ".csv" = true →
    DataLoader.load_csv csv_DictReader data_dir fs file_name st = (Ok rows, st') →
    parsed csv_DictReader json_load yaml_safe_load data_dir fs file_name st
           CSV (as_document rows) st'
| parsed_json data st' :
    endswith (lower file_name) ".json" = true →
    DataLoader.load_json json_load data_dir fs file_name st = (Ok data, st') →
    parsed csv_DictReader json_load yaml_safe_load data_dir fs file_name st
           JSON data st'
| parsed_yaml data st' :
    endswith (lower file_name) ".yaml" || endswith (lower file_name) ".yml" = true →
    DataLoader.load_yaml yaml_safe_load data_dir fs file_name st = (Ok data, st') →
    parsed csv_DictReader json_load yaml_safe_load data_dir fs file_name st
           YAML data st'.

(** The cache of a loader in good order: every entry is an object on the
    heap, and it is not [None]. *)
Definition cache_in_order (st : state) : Prop :=
  ∀ key r, config_cache st !! key = Some r →
    ∃ l v, r = Ref l ∧ heap st !! l = Some v ∧ v ≠ PNone.

(** A computation that neither reads nor keeps any state: in every state it
    gives the same result, makes the same file-system calls and writes the
    same log records, and it leaves cache and heap alone. *)
Definition stateless {A} (m : M A) : Prop :=
  ∃ res evs records, ∀ st,
    m st = (res, State (config_cache st) (heap st)
                       (trace st ++ evs) (log st ++ records)).

(** The last record of a run of [main]: the one of success, or the one of
    failure with the text of the exception. *)
Definition completed : level * string :=
  (INFO, "UI Automation Framework completed successfully").
Definition failed (str : exn → string) (e : exn) : level * string :=
  (ERROR, "UI Automation Framework failed: " +:+ str e).

(** * Properties of [ConfigLoader] *)

Section config_properties.
Import ConfigLoader.
Variable yaml_safe_load : string → string → lib_exn + pyval.
Variable json_load : string → lib_exn + pyval.
Variable config_dir : string.

Local Abbreviation try_load := (_try_load_config yaml_safe_load json_load config_dir).
Local Abbreviation load := (load_config yaml_safe_load json_load config_dir).
Local Abbreviation parse := (parse_as yaml_safe_load json_load).
Local Abbreviation load_file := (load_as yaml_safe_load json_load).

Lemma deref_new_ref data st : deref (store data st) (new_ref data st) = Some data.
Proof.
  destruct data; try reflexivity; simpl; by rewrite list_lookup_middle.
Qed.

Lemma store_frame data st :
  config_cache (store data st) = config_cache st
  ∧ trace (store data st) = trace st
  ∧ log (store data st) = log st
  ∧ heap st `prefix_of` heap (store data st).
Proof.
  destruct data; simpl; repeat split; try done; by apply prefix_app_r.
Qed.

Lemma new_ref_none data st : new_ref data st = NoneRef ↔ data = PNone.
Proof. destruct data; simpl; split; done. Qed.

(** What reading one file does. *)
Lemma load_as_eq f fs path st :
  load_file f fs path st =
  match parse_with (parse f path) (read_file fs path) with
  | inr data =>
      (Ok (new_ref data st),
       set_log (λ l, l ++ [(INFO, "Loaded " +:+ parser_name f
                                  +:+ " configuration from " +:+ path)])
         (store data (set_trace (λ t, t ++ [Open path]) st)))
  | inl e =>
      (Raise (LibraryError e),
       set_log (λ l, l ++ [(ERROR, "Failed to load " +:+ parser_name f
                                   +:+ " configuration from " +:+ path
                                   +:+ ": " +:+ exc_str e)])
         (set_trace (λ t, t ++ [Open path]) st))
  end.
Proof.
  destruct f; simpl; unfold _load_yaml, _load_json, bind, open_; simpl;
    destruct (parse_with _ _); reflexivity.
Qed.

(** The search of [_try_load_config], as one equation. *)
Lemma try_load_eq fs config_name st :
  try_load fs config_name st =
  let st1 := set_trace (λ t, t ++ probes fs config_dir config_name) st in
  match select fs config_dir config_name with
  | Some (path, f) => load_file f fs path st1
  | None => (Ok NoneRef, st1)
  end.
Proof.
  unfold _try_load_config, select, probes, candidates, bind, os_path_exists.
  fold (candidate config_dir config_name ".yaml").
  fold (candidate config_dir config_name ".yml").
  fold (candidate config_dir config_name ".json").
  destruct st as [c h t l]; simpl.
  repeat (case_bool_decide; simpl);
    unfold set_trace; simpl; rewrite <- ?app_assoc; reflexivity.
Qed.

Lemma select_candidate fs config_name path f :
  select fs config_dir config_name = Some (path, f) →
  path ∈ candidates config_dir config_name ∧ is_Some (fs !! path).
Proof.
  unfold select, candidates.
  repeat case_bool_decide; intros [= <- <-]; split; try done; set_solver.
Qed.

Lemma select_none fs config_name :
  select fs config_dir config_name = None ↔
  ∀ path, path ∈ candidates config_dir config_name → fs !! path = None.
Proof.
  unfold select, candidates. split.
  - repeat case_bool_decide; try done. intros _ path Hin.
    repeat match goal with
           | H : ¬ is_Some _ |- _ => apply eq_None_not_Some in H
           end.
    apply list_elem_of_fmap in Hin as (ext & Hpath & Hext). subst path.
    apply elem_of_cons in Hext as [Hext|Hext]; [by subst ext|].
    apply elem_of_cons in Hext as [Hext|Hext]; [by subst ext|].
    apply list_elem_of_singleton in Hext. by subst ext.
  - intros Hnone.
    repeat case_bool_decide; try done;
      match goal with
      | H : is_Some (fs !! ?p) |- _ =>
          rewrite (Hnone p) in H by set_solver; by destruct H
      end.
Qed.

Lemma opened_app t1 t2 : opened (t1 ++ t2) = opened t1 ++ opened t2.
Proof. apply omap_app. Qed.

Lemma opened_probes fs config_name : opened (probes fs config_dir config_name) = [].
Proof. unfold probes. repeat case_bool_decide; reflexivity. Qed.

Lemma opened_touched fs config_name :
  opened (touched fs config_dir config_name) =
  match select fs config_dir config_name with
  | Some (path, _) => [path]
  | None => []
  end.
Proof.
  unfold touched. rewrite opened_app, opened_probes.
  by destruct (select _ _ _) as [[??]|].
Qed.

Lemma touched_paths fs config_name :
  Forall (λ ev, event_path ev ∈ candidates config_dir config_name)
         (touched fs config_dir config_name).
Proof.
  unfold touched. apply Forall_app. split.
  - unfold probes, candidates.
    repeat case_bool_decide; repeat constructor; simpl; set_solver.
  - destruct (select _ _ _) as [[path f]|] eqn:Hsel; [|constructor].
    apply select_candidate in Hsel as [Hin _]. by apply Forall_singleton.
Qed.

(** [_try_load_config] never touches the cache, only adds to the heap, and
    makes exactly the calls of [touched]. *)
Lemma try_load_frame fs config_name st res st' :
  try_load fs config_name st = (res, st') →
  config_cache st' = config_cache st
  ∧ heap st `prefix_of` heap st'
  ∧ trace st' = trace st ++ touched fs config_dir config_name.
Proof.
  rewrite try_load_eq. unfold touched. cbv zeta.
  destruct (select _ _ _) as [[path f]|].
  - rewrite load_as_eq. destruct (parse_with _ _) as [e|data];
      intros [= <- <-]; simpl.
    + by rewrite app_assoc.
    + destruct (store_frame data
        (set_trace (λ t, t ++ probes fs config_dir config_name ++ [Open path]) st))
        as (Hc & Ht & _ & Hh).
      destruct data; simpl in *; rewrite <- ?app_assoc; repeat split; try done;
        by apply prefix_app_r.
  - intros [= <- <-]; simpl. by rewrite app_nil_r.
Qed.

Lemma load_hit fs config_name environment st r :
  config_cache st !! cache_key config_name environment = Some r →
  load fs config_name environment st = (Ok r, st).
Proof. intros H. unfold load_config. by rewrite H. Qed.

(** One call on a cache miss, in terms of the two searches. *)
Lemma load_miss fs config_name environment st :
  config_cache st !! cache_key config_name environment = None →
  load fs config_name environment st =
  match try_load fs (config_name +:+ "_" +:+ environment) st with
  | (Raise e, st1) => (Raise e, st1)
  | (Ok r1, st1) =>
      match (if bool_decide (r1 = NoneRef) && negb (String.eqb environment "default")
             then try_load fs config_name st1 else (Ok r1, st1)) with
      | (Raise e, st2) => (Raise e, st2)
      | (Ok r2, st2) =>
          if bool_decide (r2 = NoneRef)
          then (Raise (not_found config_name environment), st2)
          else (Ok r2, set_cache <[cache_key config_name environment := r2]> st2)
      end
  end.
Proof.
  intros H. unfold load_config. rewrite H. unfold bind, ret, raise.
  destruct (try_load _ _ _) as [[r1|e1] st1]; [|reflexivity].
  destruct (bool_decide (r1 = NoneRef) && negb (String.eqb environment "default")).
  - destruct (try_load _ _ _) as [[r2|e2] st2]; [|reflexivity].
    by destruct (bool_decide (r2 = NoneRef)).
  - simpl. by destruct (bool_decide (r1 = NoneRef)).
Qed.

#[local] Instance extends_refl : Reflexive extends.
Proof. by split. Qed.

#[local] Instance extends_trans : Transitive extends.
Proof. intros ??? [??] [??]. split; by etrans. Qed.

(** What one call of [load_config] does to the state, whatever it returns. *)
Lemma load_frame fs config_name environment st res st' :
  load fs config_name environment st = (res, st') →
  extends st st'
  ∧ (∀ r, res = Ok r → config_cache st' !! cache_key config_name environment = Some r)
  ∧ ∃ evs, trace st' = trace st ++ evs ∧
      (evs = []
       ∨ evs = touched fs config_dir (config_name +:+ "_" +:+ environment)
       ∨ (environment ≠ "default"
          ∧ evs = touched fs config_dir (config_name +:+ "_" +:+ environment)
                  ++ touched fs config_dir config_name)).
Proof.
  destruct (config_cache st !! cache_key config_name environment) as [r|] eqn:Hc.
  { rewrite (load_hit _ _ _ _ _ Hc). intros [= <- <-].
    repeat split; [done|done|by intros ? [= <-]|].
    exists []. rewrite app_nil_r. auto. }
  rewrite (load_miss _ _ _ _ Hc).
  destruct (try_load _ _ _) as [[r1|e1] st1] eqn:E1;
    apply try_load_frame in E1 as (Hc1 & Hh1 & Ht1).
  2:{ intros [= <- <-]. repeat split; [by rewrite Hc1|done|done|eauto]. }
  destruct (bool_decide (r1 = NoneRef) && negb (String.eqb environment "default"))
    eqn:Hfall.
  - apply andb_true_iff in Hfall as [_ Hne%negb_true_iff%String.eqb_neq].
    destruct (try_load fs config_name st1) as [[r2|e2] st2] eqn:E2;
      apply try_load_frame in E2 as (Hc2 & Hh2 & Ht2).
    2:{ intros [= <- <-].
        repeat split; [by rewrite Hc2, Hc1|by etrans|done|].
        eexists. rewrite Ht2, Ht1, <- app_assoc. eauto. }
    case_bool_decide; intros [= <- <-]; simpl.
    + repeat split; [by rewrite Hc2, Hc1|by etrans|done|].
      eexists. rewrite Ht2, Ht1, <- app_assoc. eauto.
    + repeat split; simpl.
      * rewrite Hc2, Hc1. by apply insert_subseteq.
      * by etrans.
      * intros ? [= <-]. apply lookup_insert_eq.
      * eexists. rewrite Ht2, Ht1, <- app_assoc. eauto.
  - case_bool_decide; intros [= <- <-]; simpl.
    + repeat split; [by rewrite Hc1|done|done|eauto].
    + repeat split; simpl; [rewrite Hc1; by apply insert_subseteq|done| |eauto].
      intros ? [= <-]. apply lookup_insert_eq.
Qed.

Lemma run_calls_extends calls st :
  extends st (run_calls load calls st).
Proof.
  revert st. induction calls as [|c calls IH]; intros st; simpl; [done|].
  etrans; [|apply IH].
  destruct (load _ _ _ st) as [res st'] eqn:E. by apply load_frame in E as [? _].
Qed.

Lemma deref_extends st st' r v :
  extends st st' → deref st r = Some v → deref st' r = Some v.
Proof.
  intros [_ Hh]. destruct r as [|l]; simpl; [done|].
  intros Hl. by eapply prefix_lookup_Some.
Qed.

(** ** Distinct candidates *)

Lemma string_app_assoc (a b c : string) : (a +:+ b) +:+ c = a +:+ b +:+ c.
Proof.
  induction a as [|x a IH]; [reflexivity|].
  change (String x ((a +:+ b) +:+ c) = String x (a +:+ b +:+ c)). by rewrite IH.
Qed.

Lemma startswith_cons c s s' :
  startswith (String c s) "/" = startswith (String c s') "/".
Proof.
  unfold startswith. cbn -[ascii_dec]. destruct (ascii_dec _ c); [|done].
  by destruct s, s'.
Qed.

Lemma os_path_join_inj d a b :
  startswith a "/" = startswith b "/" →
  os_path_join d a = os_path_join d b → a = b.
Proof.
  unfold os_path_join. intros ->. destruct (startswith b "/"); [done|].
  destruct (_ || _); intros H; apply (inj (String.app d)) in H; [done|].
  by apply (inj (String.app "/")) in H.
Qed.

(** A file searched for [name_environment] is never a file searched for
    [name]. *)
Lemma candidate_env_ne config_name environment p :
  p ∈ candidates config_dir (config_name +:+ "_" +:+ environment) →
  p ∈ candidates config_dir config_name → False.
Proof.
  unfold candidates, candidate.
  intros H1 H2.
  apply list_elem_of_fmap in H1 as (e1 & Hp & _).
  apply list_elem_of_fmap in H2 as (e2 & Heq & He2). subst p.
  apply os_path_join_inj in Heq.
  - rewrite !string_app_assoc in Heq. apply (inj (String.app config_name)) in Heq.
    set_unfold.
    destruct He2 as [He | [He | [He | []]]]; rewrite He in Heq; discriminate Heq.
  - destruct config_name as [|c n].
    + set_unfold. by destruct He2 as [He | [He | [He | []]]]; rewrite He.
    + apply startswith_cons.
Qed.

(** ** Caching *)

Lemma load_caches fs config_name environment st r st1 :
  load fs config_name environment st = (Ok r, st1) →
  config_cache st1 !! cache_key config_name environment = Some r.
Proof. intros H. apply load_frame in H as (_ & Hr & _). by apply Hr. Qed.

(** Within one call no file is opened twice. *)
Lemma load_opens_once fs config_name environment st res st' :
  load fs config_name environment st = (res, st') →
  ∃ evs, trace st' = trace st ++ evs ∧ NoDup (opened evs).
Proof.
  intros H. apply load_frame in H as (_ & _ & evs & Ht & Hevs).
  exists evs. split; [done|].
  destruct Hevs as [-> | [-> | [_ ->]]].
  - constructor.
  - rewrite opened_touched.
    destruct (select _ _ _) as [[??]|]; [apply NoDup_singleton|constructor].
  - rewrite opened_app, !opened_touched.
    destruct (select fs config_dir (config_name +:+ "_" +:+ environment))
      as [[p1 f1]|] eqn:E1;
      destruct (select fs config_dir config_name) as [[p2 f2]|] eqn:E2; simpl;
      try apply NoDup_singleton; try constructor.
    + apply select_candidate in E1 as [H1 _], E2 as [H2 _].
      intros ->%list_elem_of_singleton. by eapply candidate_env_ne.
    + apply NoDup_singleton.
Qed.


(** ** Search order *)

Lemma select_yaml fs config_name :
  is_Some (fs !! candidate config_dir config_name ".yaml") →
  select fs config_dir config_name = Some (candidate config_dir config_name ".yaml", AsYAML)
  ∧ probes fs config_dir config_name = [Probe (candidate config_dir config_name ".yaml")].
Proof. intros H. unfold select, probes. by rewrite bool_decide_eq_true_2. Qed.

Lemma select_yml fs config_name :
  fs !! candidate config_dir config_name ".yaml" = None →
  is_Some (fs !! candidate config_dir config_name ".yml") →
  select fs config_dir config_name = Some (candidate config_dir config_name ".yml", AsYAML)
  ∧ probes fs config_dir config_name
    = [Probe (candidate config_dir config_name ".yaml");
       Probe (candidate config_dir config_name ".yml")].
Proof.
  intros H1 H2. unfold select, probes.
  rewrite bool_decide_eq_false_2 by (rewrite H1; by intros [??]).
  by rewrite bool_decide_eq_true_2.
Qed.

Lemma select_json fs config_name :
  fs !! candidate config_dir config_name ".yaml" = None →
  fs !! candidate config_dir config_name ".yml" = None →
  is_Some (fs !! candidate config_dir config_name ".json") →
  select fs config_dir config_name = Some (candidate config_dir config_name ".json", AsJSON)
  ∧ probes fs config_dir config_name = Probe <$> candidates config_dir config_name.
Proof.
  intros H1 H2 H3. unfold select, probes.
  rewrite bool_decide_eq_false_2 by (rewrite H1; by intros [??]).
  rewrite bool_decide_eq_false_2 by (rewrite H2; by intros [??]).
  by rewrite bool_decide_eq_true_2.
Qed.

Lemma probes_none fs config_name :
  select fs config_dir config_name = None →
  probes fs config_dir config_name = Probe <$> candidates config_dir config_name.
Proof. unfold select, probes. by repeat case_bool_decide. Qed.

(** A readable, well-formed file that is selected is what the search
    returns, as a fresh object. *)
Lemma try_load_selected fs config_name st path f content data :
  select fs config_dir config_name = Some (path, f) →
  fs !! path = Some (Readable content) →
  parse f path content = inr data →
  try_load fs config_name st =
    (Ok (new_ref data st),
     set_log (λ l, l ++ [(INFO, "Loaded " +:+ parser_name f
                                +:+ " configuration from " +:+ path)])
       (store data
          (set_trace (λ t, t ++ probes fs config_dir config_name ++ [Open path]) st))).
Proof.
  intros Hsel Hfile Hparse. rewrite try_load_eq, Hsel. cbv zeta.
  rewrite load_as_eq. unfold read_file. rewrite Hfile. simpl. rewrite Hparse.
  destruct st as [c h t l]. unfold set_trace; simpl. by rewrite <- app_assoc.
Qed.

(** A readable file that is selected and does not parse: [_load_yaml] and
    [_load_json] log the path and re-raise. *)
Lemma try_load_malformed fs config_name st path f content e :
  select fs config_dir config_name = Some (path, f) →
  fs !! path = Some (Readable content) →
  parse f path content = inl e →
  try_load fs config_name st =
    (Raise (LibraryError e),
     set_log (λ l, l ++ [(ERROR, "Failed to load " +:+ parser_name f
                                 +:+ " configuration from " +:+ path
                                 +:+ ": " +:+ exc_str e)])
       (set_trace (λ t, t ++ probes fs config_dir config_name ++ [Open path]) st)).
Proof.
  intros Hsel Hfile Hparse. rewrite try_load_eq, Hsel. cbv zeta.
  rewrite load_as_eq. unfold read_file. rewrite Hfile. simpl. rewrite Hparse.
  destruct st as [c h t l]. unfold set_trace; simpl. by rewrite <- app_assoc.
Qed.

Lemma try_load_none fs config_name st :
  select fs config_dir config_name = None →
  try_load fs config_name st =
    (Ok NoneRef,
     set_trace (λ t, t ++ (Probe <$> candidates config_dir config_name)) st).
Proof.
  intros Hsel. rewrite try_load_eq, Hsel. cbv zeta. by rewrite probes_none.
Qed.

(** C4.  [_try_load_config] tries [.yaml], then [.yml], then [.json], and
    hands the first path that exists to the loader of its format; nothing
    after that path is looked at.  In particular a readable, well-formed
    [.yaml] file is parsed and returned whatever else is there, and so is a
    [.yml] file when there is no [.yaml] file, also when a [.json] file
    exists. *)
Theorem search_order fs config_name st :
  let yaml := candidate config_dir config_name ".yaml" in
  let yml := candidate config_dir config_name ".yml" in
  let json := candidate config_dir config_name ".json" in
  (is_Some (fs !! yaml) →
   try_load fs config_name st
   = (os_path_exists fs yaml;; _load_yaml yaml_safe_load fs yaml) st)
  ∧ (fs !! yaml = None → is_Some (fs !! yml) →
     try_load fs config_name st
     = (os_path_exists fs yaml;; os_path_exists fs yml;;
        _load_yaml yaml_safe_load fs yml) st)
  ∧ (fs !! yaml = None → fs !! yml = None → is_Some (fs !! json) →
     try_load fs config_name st
     = (os_path_exists fs yaml;; os_path_exists fs yml;; os_path_exists fs json;;
        _load_json json_load fs json) st)
  ∧ (fs !! yaml = None → fs !! yml = None → fs !! json = None →
     try_load fs config_name st
     = (os_path_exists fs yaml;; os_path_exists fs yml;; os_path_exists fs json;;
        ret NoneRef) st)
  ∧ (∀ content data,
       fs !! yaml = Some (Readable content) →
       yaml_safe_load yaml content = inr data →
       ∃ r st', try_load fs config_name st = (Ok r, st')
                ∧ deref st' r = Some data
                ∧ trace st' = trace st ++ [Probe yaml; Open yaml])
  ∧ (∀ content data,
       fs !! yaml = None →
       fs !! yml = Some (Readable content) →
       yaml_safe_load yml content = inr data →
       ∃ r st', try_load fs config_name st = (Ok r, st')
                ∧ deref st' r = Some data
                ∧ trace st' = trace st ++ [Probe yaml; Probe yml; Open yml]).
Proof.
  intros yaml yml json.
  assert (∀ p, fs !! p = None → bool_decide (is_Some (fs !! p)) = false) as Hno.
  { intros p Hp. rewrite Hp. apply bool_decide_eq_false_2. by intros [??]. }
  repeat split.
  - intros H. unfold _try_load_config, bind, os_path_exists.
    fold (candidate config_dir config_name ".yaml"). fold yaml.
    by rewrite bool_decide_eq_true_2.
  - intros H1 H2. unfold _try_load_config, bind, os_path_exists.
    fold (candidate config_dir config_name ".yaml"). fold yaml.
    fold (candidate config_dir config_name ".yml"). fold yml.
    rewrite (Hno _ H1). by rewrite bool_decide_eq_true_2.
  - intros H1 H2 H3. unfold _try_load_config, bind, os_path_exists.
    fold (candidate config_dir config_name ".yaml"). fold yaml.
    fold (candidate config_dir config_name ".yml"). fold yml.
    fold (candidate config_dir config_name ".json"). fold json.
    rewrite (Hno _ H1), (Hno _ H2). by rewrite bool_decide_eq_true_2.
  - intros H1 H2 H3. unfold _try_load_config, bind, os_path_exists.
    fold (candidate config_dir config_name ".yaml"). fold yaml.
    fold (candidate config_dir config_name ".yml"). fold yml.
    fold (candidate config_dir config_name ".json"). fold json.
    by rewrite (Hno _ H1), (Hno _ H2), (Hno _ H3).
  - intros content data Hfile Hparse.
    destruct (select_yaml fs config_name) as [Hsel Hprobes];
      [eexists; exact Hfile|].
    do 2 eexists. split; [by eapply (try_load_selected _ _ _ _ AsYAML)|].
    rewrite Hprobes. split; [|by destruct data].
    destruct data; simpl; try done; by rewrite list_lookup_middle.
  - intros content data Hno1 Hfile Hparse.
    destruct (select_yml fs config_name) as [Hsel Hprobes];
      [exact Hno1|eexists; exact Hfile|].
    do 2 eexists. split; [by eapply (try_load_selected _ _ _ _ AsYAML)|].
    rewrite Hprobes. split; [|by destruct data].
    destruct data; simpl; try done; by rewrite list_lookup_middle.
Qed.

(** ** Not found, and the fallback *)

Lemma prefix_app (s t : string) : String.prefix s (s +:+ t) = true.
Proof.
  induction s as [|a s IH]; [by destruct t|].
  change (String a s +:+ t) with (String a (s +:+ t)).
  cbn -[ascii_dec]. by destruct (ascii_dec a a).
Qed.

Lemma occurs_in_prefix (sub s : string) :
  String.prefix sub s = true → occurs_in sub s = true.
Proof. intros H. destruct s; cbn [occurs_in]; by rewrite H. Qed.

Lemma occurs_in_app (sub a b : string) : occurs_in sub (a +:+ sub +:+ b) = true.
Proof.
  induction a as [|x a IH].
  - change ("" +:+ sub +:+ b) with (sub +:+ b).
    apply occurs_in_prefix, prefix_app.
  - change (String x a +:+ sub +:+ b) with (String x (a +:+ sub +:+ b)).
    cbn [occurs_in]. rewrite IH. apply orb_true_r.
Qed.

(** The message of the not-found error shows the name and the
    environment. *)
Lemma not_found_names_both config_name environment :
  ∃ msg, not_found config_name environment = FileNotFoundError msg
         ∧ occurs_in config_name msg = true
         ∧ occurs_in environment msg = true.
Proof.
  eexists. split; [reflexivity|]. split.
  - apply occurs_in_app.
  - rewrite <- (string_app_assoc "Configuration file not found for ").
    rewrite <- (string_app_assoc _ " (").
    apply occurs_in_app.
Qed.

Lemma load_not_found fs config_name environment st :
  config_cache st !! cache_key config_name environment = None →
  select fs config_dir (config_name +:+ "_" +:+ environment) = None →
  environment = "default" ∨ select fs config_dir config_name = None →
  ∃ st', load fs config_name environment st
         = (Raise (not_found config_name environment), st')
         ∧ config_cache st' = config_cache st
         ∧ trace st' = trace st
             ++ (Probe <$> candidates config_dir (config_name +:+ "_" +:+ environment))
             ++ (if String.eqb environment "default" then []
                 else Probe <$> candidates config_dir config_name).
Proof.
  intros Hmiss Hsel1 Hsel2. rewrite (load_miss _ _ _ _ Hmiss).
  rewrite (try_load_none _ _ _ Hsel1). rewrite bool_decide_eq_true_2 by done.
  destruct (String.eqb environment "default") eqn:Hdef; simpl.
  - eexists. split; [reflexivity|]. simpl. done.
  - destruct Hsel2 as [->|Hsel2]; [done|].
    rewrite (try_load_none _ _ _ Hsel2). rewrite bool_decide_eq_true_2 by done.
    eexists. split; [reflexivity|]. simpl. by rewrite <- app_assoc.
Qed.

(** ** Where cached objects come from *)

Lemma try_load_found fs config_name st r st' :
  try_load fs config_name st = (Ok r, st') →
  r ≠ NoneRef →
  select fs config_dir config_name ≠ None.
Proof.
  rewrite try_load_eq. cbv zeta.
  destruct (select _ _ _); [done|]. by intros [= <- _].
Qed.

(** A call leaves the cache alone or adds the key of its pair, and the
    latter only when it returns an object, for a pair that [resolves]. *)
Lemma load_cache_change fs config_name environment st res st' :
  load fs config_name environment st = (res, st') →
  config_cache st' = config_cache st
  ∨ (resolves fs config_dir config_name environment
     ∧ ∃ r, res = Ok r
            ∧ config_cache st'
              = <[cache_key config_name environment := r]> (config_cache st)).
Proof.
  destruct (config_cache st !! cache_key config_name environment) as [r|] eqn:Hc.
  { rewrite (load_hit _ _ _ _ _ Hc). intros [= <- <-]. by left. }
  rewrite (load_miss _ _ _ _ Hc).
  destruct (try_load _ _ _) as [[r1|e1] st1] eqn:E1.
  2:{ apply try_load_frame in E1 as (Hc1 & _). intros [= <- <-]. by left. }
  destruct (bool_decide (r1 = NoneRef) && negb (String.eqb environment "default"))
    eqn:Hfall.
  - apply andb_true_iff in Hfall as [_ Hne%negb_true_iff%String.eqb_neq].
    destruct (try_load fs config_name st1) as [[r2|e2] st2] eqn:E2.
    2:{ apply try_load_frame in E1 as (Hc1 & _), E2 as (Hc2 & _).
        intros [= <- <-]. left. by rewrite Hc2. }
    case_bool_decide as Hr2; intros [= <- <-]; simpl.
    + apply try_load_frame in E1 as (Hc1 & _), E2 as (Hc2 & _).
      left. by rewrite Hc2.
    + right. split.
      * right. split; [done|]. by eapply try_load_found.
      * apply try_load_frame in E1 as (Hc1 & _), E2 as (Hc2 & _).
        exists r2. by rewrite Hc2, Hc1.
  - case_bool_decide as Hr1; intros [= <- <-]; simpl.
    + apply try_load_frame in E1 as (Hc1 & _). by left.
    + right. split.
      * left. by eapply try_load_found.
      * apply try_load_frame in E1 as (Hc1 & _). exists r1. by rewrite Hc1.
Qed.

(** Only a load that returns an object writes the cache. *)
Lemma load_failure_caches_nothing fs config_name environment st e st' :
  load fs config_name environment st = (Raise e, st') →
  config_cache st' = config_cache st.
Proof.
  intros H. by apply load_cache_change in H as [? | (_ & r & [=] & _)].
Qed.

(** C1 (as the code has it).  Once [load_config] has returned an object for
    a name and an environment, every later call with that name and that
    environment on the same instance returns that very object, whatever
    calls were made in between and whatever the file system has become, and
    it leaves the state as it found it: no [os.path.exists], no [open], no
    log record, and the object's content is the one it had.  No call opens
    a file twice.  A call that raises leaves the cache as it was. *)
Theorem cached_object_is_kept fs config_name environment st res st1 :
  load fs config_name environment st = (res, st1) →
  (∃ evs, trace st1 = trace st ++ evs ∧ NoDup (opened evs))
  ∧ (∀ r, res = Ok r →
       ∀ calls fs',
         let st2 := run_calls load calls st1 in
         load fs' config_name environment st2 = (Ok r, st2)
         ∧ ∀ v, deref st1 r = Some v → deref st2 r = Some v)
  ∧ (∀ e, res = Raise e → config_cache st1 = config_cache st).
Proof.
  intros Hload. split; [by eapply load_opens_once|]. split.
  - intros r -> calls fs' st2.
    assert (extends st1 st2) as Hext by apply run_calls_extends.
    split.
    + apply load_hit. apply load_caches in Hload.
      destruct Hext as [Hsub _]. by eapply lookup_weaken.
    + intros v. by apply deref_extends.
  - intros e ->. by eapply load_failure_caches_nothing.
Qed.

(** From a fresh loader and one unchanging directory, every cached key is
    the key of a pair that resolves in that directory. *)
Lemma cached_keys_resolve fs calls key r :
  Forall (λ c, call_fs c = fs) calls →
  config_cache (run_calls load calls fresh) !! key = Some r →
  ∃ config_name environment,
    key = cache_key config_name environment
    ∧ resolves fs config_dir config_name environment.
Proof.
  intros Hcalls.
  assert (∀ st, (∀ k v, config_cache st !! k = Some v →
                        ∃ n e, k = cache_key n e ∧ resolves fs config_dir n e) →
                config_cache (run_calls load calls st) !! key = Some r →
                ∃ n e, key = cache_key n e ∧ resolves fs config_dir n e) as Hgen.
  { induction Hcalls as [|c calls Hc _ IH]; intros st Hinv; simpl; [by apply Hinv|].
    apply IH. intros k v.
    destruct (load (call_fs c) (call_name c) (call_environment c) st)
      as [res st'] eqn:E.
    simpl.
    apply load_cache_change in E as [-> | (Hres & r' & _ & ->)]; [by apply Hinv|].
    destruct (decide (cache_key (call_name c) (call_environment c) = k)) as [<-|Hk].
    - intros _. rewrite Hc in Hres. eauto.
    - rewrite lookup_insert_ne by done. by apply Hinv. }
  apply Hgen. intros k v H. simpl in H. by rewrite lookup_empty in H.
Qed.

(** Two ways to cut one string meet in a common middle. *)
Lemma string_app_split (a b c d : string) :
  a +:+ b = c +:+ d →
  ∃ x, (a = c +:+ x ∧ d = x +:+ b) ∨ (c = a +:+ x ∧ b = x +:+ d).
Proof.
  revert c. induction a as [|ch a IH]; intros c H.
  - exists c. right. done.
  - destruct c as [|ch' c].
    + exists (String ch a). left. done.
    + injection H as -> H. destruct (IH _ H) as (x & [[-> ->] | [-> ->]]);
        exists x; [left|right]; done.
Qed.

(** Among the pairs with the key of [(name, "default")], only that pair
    itself searches the files of [name]. *)
Lemma default_key_owner config_name n e ext :
  cache_key n e = cache_key config_name "default" →
  ext ∈ [".yaml"; ".yml"; ".json"] →
  candidate config_dir n ext = candidate config_dir config_name ".yaml" →
  e = "default".
Proof.
  unfold cache_key, candidate. intros Hkey Hext Hpath.
  assert (∃ c rest, ext = String c rest ∧ c = "."%char) as (c & rest & -> & Hdot).
  { set_unfold. destruct Hext as [-> | [-> | [-> | []]]]; eauto. }
  apply string_app_split in Hkey as (x & [[-> Hx] | [-> Hx]]).
  - apply os_path_join_inj in Hpath.
    + rewrite string_app_assoc in Hpath.
      apply (inj (String.app config_name)) in Hpath.
      destruct x as [|cx x]; cbv [String.append] in Hx, Hpath.
      * by injection Hx.
      * injection Hx as Hcx _. injection Hpath as Hc _. congruence.
    + destruct config_name as [|c0 name]; [|apply startswith_cons].
      destruct x as [|cx x]; [by subst c|].
      cbv [String.append] in Hx. injection Hx as <- _. done.
  - apply os_path_join_inj in Hpath.
    + rewrite string_app_assoc in Hpath. apply (inj (String.app n)) in Hpath.
      destruct x as [|cx x]; cbv [String.append] in Hx, Hpath.
      * by injection Hx.
      * injection Hx as Hcx _. injection Hpath as Hc _. congruence.
    + destruct n as [|c0 n]; [|apply startswith_cons].
      destruct x as [|cx x]; [by subst c|].
      cbv [String.append] in Hx. injection Hx as Hcx _. by subst c cx.
Qed.

(** In a directory that holds [{name}.yaml] and nothing else, no call ever
    caches the key of [(name, "default")]. *)
Lemma default_key_never_cached config_name node calls :
  let fs : filesystem := {[ candidate config_dir config_name ".yaml" := node ]} in
  Forall (λ c, call_fs c = fs) calls →
  config_cache (run_calls load calls fresh) !! cache_key config_name "default" = None.
Proof.
  intros fs Hcalls.
  destruct (config_cache _ !! _) as [r|] eqn:Hc; [exfalso|done].
  apply (cached_keys_resolve fs) in Hc as (n & e & Hkey & Hres); [|done].
  assert (∀ x, select fs config_dir x ≠ None →
               candidate config_dir config_name ".yaml" ∈ candidates config_dir x)
    as Hsel.
  { intros x Hx. destruct (select fs config_dir x) as [[p f]|] eqn:E; [|done].
    apply select_candidate in E as [Hin [v Hv]].
    apply lookup_singleton_Some in Hv as [<- _]. done. }
  destruct Hres as [Hres | [Hne Hres]]; apply Hsel in Hres.
  - apply (candidate_env_ne config_name "default"
             (candidate config_dir config_name ".yaml")).
    + fold (cache_key config_name "default"). rewrite Hkey. exact Hres.
    + unfold candidates. simpl. by left.
  - apply list_elem_of_fmap in Hres as (ext & Hpath & Hext).
    apply Hne. by eapply default_key_owner.
Qed.

(** C10.  With the environment ["default"] (given or left out) every
    file-system call of [load_config] is on one of the three paths
    [{name}_default.yaml], [.yml], [.json]; the files [{name}.*] are never
    looked at.  So when none of the three exists and nothing is cached for
    the name, the call fails with the not-found error after exactly three
    [os.path.exists] calls, whatever else the directory holds.  In
    particular, in a directory that holds only [{name}.yaml] the call fails
    so on a new loader and after any calls made on it before. *)
Theorem default_environment_has_no_fallback fs config_name st :
  (∀ res st',
     load fs config_name default_environment st = (res, st') →
     ∃ evs, trace st' = trace st ++ evs
            ∧ Forall (λ ev, event_path ev
                            ∈ candidates config_dir (config_name +:+ "_default")) evs)
  ∧ (config_cache st !! cache_key config_name "default" = None →
     (∀ path, path ∈ candidates config_dir (config_name +:+ "_default") →
              fs !! path = None) →
     load fs config_name default_environment st
     = (Raise (not_found config_name "default"),
        set_trace (λ t, t ++ (Probe <$> candidates config_dir
                                           (config_name +:+ "_default"))) st))
  ∧ (∀ node calls,
       fs = {[ candidate config_dir config_name ".yaml" := node ]} →
       Forall (λ c, call_fs c = fs) calls →
       ∃ st', load fs config_name default_environment (run_calls load calls fresh)
              = (Raise (not_found config_name "default"), st')).
Proof.
  split; [|split].
  - intros res st' H. apply load_frame in H as (_ & _ & evs & Ht & Hevs).
    exists evs. split; [done|].
    destruct Hevs as [-> | [-> | [Hne _]]]; [constructor|apply touched_paths|done].
  - intros Hmiss Hnone. unfold default_environment.
    rewrite (load_miss _ _ _ _ Hmiss).
    rewrite try_load_none by by apply select_none.
    by rewrite bool_decide_eq_true_2.
  - intros node calls -> Hcalls.
    destruct (load_not_found
                {[ candidate config_dir config_name ".yaml" := node ]}
                config_name "default" (run_calls load calls fresh))
      as (st' & Hload & _); [| |by left|by exists st'].
    + exact (default_key_never_cached config_name node calls Hcalls).
    + apply select_none. intros path Hin. apply lookup_singleton_ne.
      intros <-. apply (candidate_env_ne config_name "default" _ Hin).
      unfold candidates. simpl. by left.
Qed.

Lemma load_falls_back fs config_name environment st path f content data :
  environment ≠ "default" →
  config_cache st !! cache_key config_name environment = None →
  select fs config_dir (config_name +:+ "_" +:+ environment) = None →
  select fs config_dir config_name = Some (path, f) →
  fs !! path = Some (Readable content) →
  parse f path content = inr data →
  data ≠ PNone →
  ∃ r st', load fs config_name environment st = (Ok r, st')
           ∧ deref st' r = Some data
           ∧ config_cache st' !! cache_key config_name environment = Some r.
Proof.
  intros Hne Hmiss Hnone Hsel Hfile Hparse Hdata.
  rewrite (load_miss _ _ _ _ Hmiss), (try_load_none _ _ _ Hnone).
  rewrite bool_decide_eq_true_2 by done.
  apply String.eqb_neq in Hne. rewrite Hne. simpl.
  rewrite (try_load_selected _ _ _ _ _ _ _ Hsel Hfile Hparse).
  rewrite bool_decide_eq_false_2 by by rewrite new_ref_none.
  do 2 eexists. split; [reflexivity|]. split.
  - destruct data; simpl; try done; by rewrite list_lookup_middle.
  - simpl. apply lookup_insert_eq.
Qed.

(** C2 (as the code has it).  Take an environment other than ["default"], a
    name with nothing cached for the pair, and no file
    [{name}_{environment}.*].  If the first existing [{name}.*] file is
    readable and parses to a value other than [None], [load_config] returns
    that value, as the object now cached for the pair.  If no [{name}.*]
    file exists either, it raises the not-found error, whose message shows
    the name and the environment, and caches nothing. *)
Theorem fallback_to_default_file fs config_name environment st :
  environment ≠ "default" →
  config_cache st !! cache_key config_name environment = None →
  (∀ path, path ∈ candidates config_dir (config_name +:+ "_" +:+ environment) →
           fs !! path = None) →
  (∀ path f content data,
     select fs config_dir config_name = Some (path, f) →
     fs !! path = Some (Readable content) →
     parse f path content = inr data →
     data ≠ PNone →
     ∃ r st', load fs config_name environment st = (Ok r, st')
              ∧ deref st' r = Some data
              ∧ config_cache st' !! cache_key config_name environment = Some r)
  ∧ ((∀ path, path ∈ candidates config_dir config_name → fs !! path = None) →
     ∃ st' msg, load fs config_name environment st = (Raise (FileNotFoundError msg), st')
                ∧ FileNotFoundError msg = not_found config_name environment
                ∧ occurs_in config_name msg = true
                ∧ occurs_in environment msg = true
                ∧ config_cache st' = config_cache st).
Proof.
  intros Hne Hmiss Hnone%select_none. split.
  - intros path f content data Hsel Hfile Hparse Hdata.
    by eapply load_falls_back.
  - intros Hnone2%select_none.
    destruct (load_not_found fs config_name environment st) as (st' & Hl & Hc & _);
      [done|done|by right|].
    destruct (not_found_names_both config_name environment) as (msg & Hmsg & H1 & H2).
    exists st', msg. rewrite <- Hmsg. done.
Qed.

(** ** Parse failures *)

(** C8 (as the code has it).  When the file the search selects (for
    [{name}_{environment}], or for [{name}] when the first search finds
    nothing and the environment is not ["default"]) is readable but its
    parser raises [e], [load_config] raises that same [e]: the exception is
    not swallowed, not replaced by the not-found error and not wrapped.  The
    path is put in an error record of the log, the last thing done before
    leaving; nothing is cached. *)
Theorem parse_failure_is_reraised fs config_name environment st path f content e :
  config_cache st !! cache_key config_name environment = None →
  select fs config_dir (config_name +:+ "_" +:+ environment) = Some (path, f)
  ∨ (environment ≠ "default"
     ∧ select fs config_dir (config_name +:+ "_" +:+ environment) = None
     ∧ select fs config_dir config_name = Some (path, f)) →
  fs !! path = Some (Readable content) →
  parse f path content = inl e →
  ∃ st', load fs config_name environment st = (Raise (LibraryError e), st')
         ∧ LibraryError e ≠ not_found config_name environment
         ∧ config_cache st' = config_cache st
         ∧ last (trace st') = Some (Open path)
         ∧ last (log st')
           = Some (ERROR, "Failed to load " +:+ parser_name f
                          +:+ " configuration from " +:+ path
                          +:+ ": " +:+ exc_str e).
Proof.
  intros Hmiss Hsel Hfile Hparse. rewrite (load_miss _ _ _ _ Hmiss).
  destruct Hsel as [Hsel | (Hne & Hnone & Hsel)].
  - rewrite (try_load_malformed _ _ _ _ _ _ _ Hsel Hfile Hparse).
    eexists. split; [reflexivity|]. simpl.
    repeat split; [done|by rewrite app_assoc, last_snoc|by rewrite last_snoc].
  - rewrite (try_load_none _ _ _ Hnone). rewrite bool_decide_eq_true_2 by done.
    apply String.eqb_neq in Hne. rewrite Hne. simpl.
    rewrite (try_load_malformed _ _ _ _ _ _ _ Hsel Hfile Hparse).
    eexists. split; [reflexivity|]. simpl.
    repeat split; [done|by rewrite !app_assoc, last_snoc|by rewrite last_snoc].
Qed.

(** ** Colliding cache keys *)

(** C9.  The cache key is [name ++ "_" ++ environment]; the pairs
    [("a_b", "c")] and [("a", "b_c")] differ and have the same key.  After a
    successful load for one pair, a load for any pair with the same key
    returns the same object and leaves the state untouched (no file-system
    call), whatever the file system holds.  Resolved from disk the two pairs
    differ: with no [a_b_c.*] and no [a_b.*] file but a good [a.*] file,
    [("a", "b_c")] falls back to [a.*] and succeeds, [("a_b", "c")] falls
    back to [a_b.*] and fails. *)
Theorem cache_key_collision :
  cache_key "a_b" "c" = cache_key "a" "b_c"
  ∧ ("a_b", "c") ≠ ("a", "b_c")
  ∧ (∀ fs fs' name1 env1 name2 env2 st r st1,
       cache_key name1 env1 = cache_key name2 env2 →
       load fs name1 env1 st = (Ok r, st1) →
       load fs' name2 env2 st1 = (Ok r, st1))
  ∧ (∀ fs st path f content data,
       config_cache st !! "a_b_c" = None →
       select fs config_dir "a_b_c" = None →
       select fs config_dir "a_b" = None →
       select fs config_dir "a" = Some (path, f) →
       fs !! path = Some (Readable content) →
       parse f path content = inr data →
       data ≠ PNone →
       (∃ r st', load fs "a" "b_c" st = (Ok r, st') ∧ deref st' r = Some data)
       ∧ (∃ st', load fs "a_b" "c" st = (Raise (not_found "a_b" "c"), st'))).
Proof.
  split; [reflexivity|]. split; [discriminate|]. split.
  - intros fs fs' name1 env1 name2 env2 st r st1 Hkey Hload.
    apply load_hit. rewrite <- Hkey. by eapply load_caches.
  - intros fs st path f content data Hmiss Hnone1 Hnone2 Hsel Hfile Hparse Hdata.
    split.
    + destruct (load_falls_back fs "a" "b_c" st path f content data)
        as (r & st' & Hl & Hd & _); try done. eauto.
    + destruct (load_not_found fs "a_b" "c" st) as (st' & Hl & _);
        [done|done|by right|]. eauto.
Qed.
End config_properties.

(** ** The configuration properties on the fixtures *)

Lemma cached_object_is_kept_witness :
  let fs := Fixtures.files [("cfg/app.yaml", Fixtures.yaml_chrome)] in
  let st1 := (Fixtures.load_config fs "app" "dev" fresh).2 in
  let st2 := run_calls Fixtures.load_config
               [Call ∅ "app" "prod"; Call fs "app" "prod"] st1 in
  Fixtures.load_config fs "app" "dev" fresh = (Ok (Ref 0), st1)
  ∧ Fixtures.load_config ∅ "app" "dev" st2 = (Ok (Ref 0), st2)
  ∧ deref st2 (Ref 0) = Some Fixtures.chrome.
Proof.
  split; [vm_compute; reflexivity|].
  destruct (cached_object_is_kept Fixtures.yaml_safe_load Fixtures.json_load "cfg"
              (Fixtures.files [("cfg/app.yaml", Fixtures.yaml_chrome)])
              "app" "dev" fresh (Ok (Ref 0))
              (Fixtures.load_config
                 (Fixtures.files [("cfg/app.yaml", Fixtures.yaml_chrome)])
                 "app" "dev" fresh).2) as (_ & Hkept & _);
    [vm_compute; reflexivity|].
  destruct (Hkept (Ref 0) eq_refl
              [Call ∅ "app" "prod";
               Call (Fixtures.files [("cfg/app.yaml", Fixtures.yaml_chrome)])
                    "app" "prod"] ∅) as [Hsame Hcontent].
  split; [exact Hsame|]. apply Hcontent. reflexivity.
Defined.

(** Counterexample to C1 as stated.  A load that fails caches nothing: the
    retry opens the malformed file a second time. *)
Lemma failed_load_reads_again :
  let fs := Fixtures.files [("cfg/app_dev.json", Fixtures.json_garbage)] in
  let failure :=
    LibraryError (LibExn "JSONDecodeError" "Expecting value: line 1 column 1 (char 0)") in
  let st1 := (Fixtures.load_config fs "app" "dev" fresh).2 in
  let st2 := (Fixtures.load_config fs "app" "dev" st1).2 in
  (Fixtures.load_config fs "app" "dev" fresh).1 = Raise failure
  ∧ (Fixtures.load_config fs "app" "dev" st1).1 = Raise failure
  ∧ opened (trace st2) = ["cfg/app_dev.json"; "cfg/app_dev.json"].
Proof. vm_compute. repeat split; reflexivity. Qed.

Lemma search_order_witness :
  let fs := Fixtures.files [("cfg/app.yaml", Fixtures.yaml_chrome);
                            ("cfg/app.yml", Fixtures.yaml_firefox);
                            ("cfg/app.json", Fixtures.json_garbage)] in
  fs !! "cfg/app.yaml" = Some (Readable Fixtures.yaml_chrome)
  ∧ Fixtures.yaml_safe_load "cfg/app.yaml" Fixtures.yaml_chrome = inr Fixtures.chrome
  ∧ ∃ r st',
      ConfigLoader._try_load_config Fixtures.yaml_safe_load Fixtures.json_load
        "cfg" fs "app" fresh = (Ok r, st')
      ∧ deref st' r = Some Fixtures.chrome
      ∧ trace st' = [Probe "cfg/app.yaml"; Open "cfg/app.yaml"].
Proof.
  split; [vm_compute; reflexivity|]. split; [vm_compute; reflexivity|].
  destruct (search_order Fixtures.yaml_safe_load Fixtures.json_load "cfg"
              (Fixtures.files [("cfg/app.yaml", Fixtures.yaml_chrome);
                               ("cfg/app.yml", Fixtures.yaml_firefox);
                               ("cfg/app.json", Fixtures.json_garbage)])
              "app" fresh) as (_ & _ & _ & _ & Hyaml & _).
  apply (Hyaml Fixtures.yaml_chrome Fixtures.chrome); vm_compute; reflexivity.
Defined.

Lemma default_environment_has_no_fallback_witness :
  let fs := Fixtures.files [("cfg/app.yaml", Fixtures.yaml_chrome)] in
  let earlier := [Call fs "app" "dev"; Call fs "app" "default"; Call fs "a" "pp_default"] in
  config_cache fresh !! ConfigLoader.cache_key "app" "default" = None
  ∧ (∀ path, path ∈ candidates "cfg" "app_default" → fs !! path = None)
  ∧ Fixtures.load_config fs "app" ConfigLoader.default_environment fresh
    = (Raise (ConfigLoader.not_found "app" "default"),
       set_trace (λ t, t ++ [Probe "cfg/app_default.yaml";
                             Probe "cfg/app_default.yml";
                             Probe "cfg/app_default.json"]) fresh)
  ∧ fs = {[ "cfg/app.yaml" := Readable Fixtures.yaml_chrome ]}
  ∧ Forall (λ c, call_fs c = fs) earlier
  ∧ ∃ st', Fixtures.load_config fs "app" ConfigLoader.default_environment
             (run_calls Fixtures.load_config earlier fresh)
           = (Raise (ConfigLoader.not_found "app" "default"), st').
Proof.
  assert (∀ path, path ∈ candidates "cfg" "app_default" →
                  Fixtures.files [("cfg/app.yaml", Fixtures.yaml_chrome)] !! path = None)
    as Hnone.
  { intros path Hin. unfold candidates in Hin. set_unfold.
    destruct Hin as (e & -> & [-> | [-> | [-> | []]]]); vm_compute; reflexivity. }
  destruct (default_environment_has_no_fallback Fixtures.yaml_safe_load
              Fixtures.json_load "cfg"
              (Fixtures.files [("cfg/app.yaml", Fixtures.yaml_chrome)]) "app" fresh)
    as (_ & Hmiss & Hreach).
  split; [reflexivity|]. split; [exact Hnone|].
  split; [exact (Hmiss eq_refl Hnone)|].
  split; [reflexivity|]. split; [repeat constructor|].
  apply (Hreach (Readable Fixtures.yaml_chrome)); [reflexivity|repeat constructor].
Defined.

Lemma fallback_to_default_file_witness :
  let fs := Fixtures.files [("cfg/app.yaml", Fixtures.yaml_chrome)] in
  "dev" ≠ "default"
  ∧ config_cache fresh !! ConfigLoader.cache_key "app" "dev" = None
  ∧ (∀ path, path ∈ candidates "cfg" "app_dev" → fs !! path = None)
  ∧ select fs "cfg" "app" = Some ("cfg/app.yaml", AsYAML)
  ∧ ∃ r st', Fixtures.load_config fs "app" "dev" fresh = (Ok r, st')
             ∧ deref st' r = Some Fixtures.chrome
             ∧ config_cache st' !! ConfigLoader.cache_key "app" "dev" = Some r.
Proof.
  assert (∀ path, path ∈ candidates "cfg" "app_dev" →
                  Fixtures.files [("cfg/app.yaml", Fixtures.yaml_chrome)] !! path = None)
    as Hnone.
  { intros path Hin. unfold candidates in Hin. set_unfold.
    destruct Hin as (e & -> & [-> | [-> | [-> | []]]]); vm_compute; reflexivity. }
  split; [discriminate|]. split; [reflexivity|]. split; [exact Hnone|].
  split; [vm_compute; reflexivity|].
  destruct (fallback_to_default_file Fixtures.yaml_safe_load Fixtures.json_load "cfg"
              (Fixtures.files [("cfg/app.yaml", Fixtures.yaml_chrome)])
              "app" "dev" fresh) as [Hfound _];
    [discriminate|reflexivity|exact Hnone|].
  apply (Hfound "cfg/app.yaml" AsYAML Fixtures.yaml_chrome Fixtures.chrome);
    [vm_compute; reflexivity..|discriminate].
Defined.

(** Counterexample to C2 as stated, in two ways.  An empty default file
    exists and parses (to [None]), yet the call reports not-found; and a
    pair whose key another pair has already filled gets that pair's object,
    not the content of its own default file. *)
Lemma default_file_not_always_returned :
  (let fs := Fixtures.files [("cfg/app.yaml", Fixtures.yaml_empty)] in
   select fs "cfg" "app_dev" = None
   ∧ select fs "cfg" "app" = Some ("cfg/app.yaml", AsYAML)
   ∧ Fixtures.yaml_safe_load "cfg/app.yaml" Fixtures.yaml_empty = inr PNone
   ∧ (Fixtures.load_config fs "app" "dev" fresh).1
     = Raise (ConfigLoader.not_found "app" "dev"))
  ∧ (let fs := Fixtures.files [("cfg/a_b.yaml", Fixtures.yaml_chrome);
                               ("cfg/a.yaml", Fixtures.yaml_firefox)] in
     let st1 := (Fixtures.load_config fs "a_b" "c" fresh).2 in
     let '(res, st2) := Fixtures.load_config fs "a" "b_c" st1 in
     select fs "cfg" "a_b_c" = None
     ∧ select fs "cfg" "a" = Some ("cfg/a.yaml", AsYAML)
     ∧ Fixtures.yaml_safe_load "cfg/a.yaml" Fixtures.yaml_firefox = inr Fixtures.firefox
     ∧ ∃ r, res = Ok r ∧ deref st2 r = Some Fixtures.chrome).
Proof.
  split.
  - vm_compute. repeat split; reflexivity.
  - vm_compute. repeat split; try reflexivity. eexists. split; reflexivity.
Qed.

Lemma parse_failure_is_reraised_witness :
  let fs := Fixtures.files [("cfg/app_dev.json", Fixtures.json_garbage)] in
  let e := LibExn "JSONDecodeError" "Expecting value: line 1 column 1 (char 0)" in
  config_cache fresh !! ConfigLoader.cache_key "app" "dev" = None
  ∧ select fs "cfg" "app_dev" = Some ("cfg/app_dev.json", AsJSON)
  ∧ fs !! "cfg/app_dev.json" = Some (Readable Fixtures.json_garbage)
  ∧ Fixtures.json_load Fixtures.json_garbage = inl e
  ∧ ∃ st', Fixtures.load_config fs "app" "dev" fresh = (Raise (LibraryError e), st')
           ∧ LibraryError e ≠ ConfigLoader.not_found "app" "dev"
           ∧ config_cache st' = config_cache fresh
           ∧ last (trace st') = Some (Open "cfg/app_dev.json")
           ∧ last (log st')
             = Some (ERROR, "Failed to load JSON configuration from cfg/app_dev.json: Expecting value: line 1 column 1 (char 0)").
Proof.
  split; [reflexivity|]. split; [vm_compute; reflexivity|].
  split; [vm_compute; reflexivity|]. split; [vm_compute; reflexivity|].
  apply (parse_failure_is_reraised Fixtures.yaml_safe_load Fixtures.json_load "cfg"
           (Fixtures.files [("cfg/app_dev.json", Fixtures.json_garbage)])
           "app" "dev" fresh "cfg/app_dev.json" AsJSON Fixtures.json_garbage);
    [reflexivity|left; vm_compute; reflexivity|vm_compute; reflexivity..].
Defined.

(** Counterexample to C8 as stated.  What reaches the caller is the
    decoder's own exception, whose class and message say nothing of the
    file; the path is only in the log. *)
Lemma parse_failure_carries_no_path :
  let fs := Fixtures.files [("cfg/app_dev.json", Fixtures.json_garbage)] in
  let '(res, st') := Fixtures.load_config fs "app" "dev" fresh in
  ∃ e, res = Raise (LibraryError e)
       ∧ Fixtures.json_load Fixtures.json_garbage = inl e
       ∧ occurs_in "cfg/app_dev.json" (exc_str e) = false
       ∧ occurs_in "app_dev" (exc_str e) = false
       ∧ exc_class e = "JSONDecodeError"
       ∧ log st' = [(ERROR, "Failed to load JSON configuration from cfg/app_dev.json: Expecting value: line 1 column 1 (char 0)")].
Proof. vm_compute. eexists. repeat split; reflexivity. Qed.

Lemma cache_key_collision_witness :
  let fs := Fixtures.files [("cfg/a_b.yaml", Fixtures.yaml_chrome)] in
  let st1 := (Fixtures.load_config fs "a_b" "c" fresh).2 in
  ConfigLoader.cache_key "a_b" "c" = ConfigLoader.cache_key "a" "b_c"
  ∧ Fixtures.load_config fs "a_b" "c" fresh = (Ok (Ref 0), st1)
  ∧ Fixtures.load_config ∅ "a" "b_c" st1 = (Ok (Ref 0), st1)
  ∧ (Fixtures.load_config fs "a" "b_c" fresh).1
    = Raise (ConfigLoader.not_found "a" "b_c").
Proof.
  destruct (cache_key_collision Fixtures.yaml_safe_load Fixtures.json_load "cfg")
    as (Hkey & _ & Hsame & _).
  split; [exact Hkey|]. split; [vm_compute; reflexivity|].
  split; [|vm_compute; reflexivity].
  eapply (Hsame (Fixtures.files [("cfg/a_b.yaml", Fixtures.yaml_chrome)]) ∅
            "a_b" "c" "a" "b_c" fresh); [exact Hkey|vm_compute; reflexivity].
Defined.

(** * Properties of [DataLoader] *)

Section data_properties.
Import DataLoader.
Variable csv_DictReader : string → lib_exn + list pydict.
Variable json_load : string → lib_exn + pyval.
Variable yaml_safe_load : string → string → lib_exn + pyval.
Variable data_dir : string.
Variable fs : filesystem.

Local Abbreviation load_test_data :=
  (DataLoader.load_test_data csv_DictReader json_load yaml_safe_load data_dir fs).
Local Abbreviation parsed :=
  (parsed csv_DictReader json_load yaml_safe_load data_dir fs).

(** ** Dispatch on the extension *)

Lemma suffixes_exclusive (s : string) :
  (endswith s ".json" = true → endswith s ".csv" = false)
  ∧ (endswith s ".yaml" = true → endswith s ".csv" = false ∧ endswith s ".json" = false)
  ∧ (endswith s ".yml" = true → endswith s ".csv" = false ∧ endswith s ".json" = false).
Proof.
  unfold endswith. generalize (String.rev s). intros r.
  change (String.rev ".json") with "nosj.".
  change (String.rev ".csv") with "vsc.".
  change (String.rev ".yaml") with "lmay.".
  change (String.rev ".yml") with "lmy.".
  destruct r as [|c r]; [done|].
  cbn -[ascii_dec].
  repeat split; repeat (destruct (ascii_dec _ c)); subst; try done.
Qed.

(** ** The loop *)

Lemma for_append_document keys (records : list pydict) acc :
  for_append (λ item, tuple_of (py_getitem item) keys) (PDict <$> records) acc
  = for_append (λ row, tuple_of (dict_getitem row) keys) records acc.
Proof.
  revert acc. induction records as [|r records IH]; intros acc; simpl; [done|].
  change (py_getitem (PDict r)) with (dict_getitem r).
  destruct (tuple_of (dict_getitem r) keys); [apply IH|done].
Qed.

(** The loop with its accumulator computes [each_tuple]. *)
Lemma for_append_each keys (records : list pydict) acc :
  leave (for_append (λ row, tuple_of (dict_getitem row) keys) records acc)
  = match each_tuple keys records with
    | Ok ts => Ok (acc ++ ts)
    | Raise e => Raise e
    end.
Proof.
  revert acc. induction records as [|r records IH]; intros acc; simpl.
  - by rewrite app_nil_r.
  - destruct (tuple_of (dict_getitem r) keys) as [t|e]; [|done].
    rewrite IH. destruct (each_tuple keys records); [|done].
    by rewrite <- app_assoc.
Qed.

Lemma for_append_each_nil keys (records : list pydict) :
  leave (for_append (λ row, tuple_of (dict_getitem row) keys) records [])
  = each_tuple keys records.
Proof. rewrite for_append_each. by destruct (each_tuple keys records). Qed.

(** When the body raises, the accumulator holds one tuple for each record
    before the offending one. *)
Lemma for_append_raises {A} (mk : A → result pytuple) good bad rest ts e acc :
  Forall2 (λ item t, mk item = Ok t) good ts →
  mk bad = Raise e →
  for_append mk (good ++ bad :: rest) acc = inl (e, acc ++ ts).
Proof.
  intros Hgood Hbad. revert acc.
  induction Hgood as [|item t good ts Hitem _ IH]; intros acc; simpl.
  - by rewrite Hbad, app_nil_r.
  - rewrite Hitem, IH. by rewrite <- app_assoc.
Qed.

Lemma tuple_of_has_keys record keys :
  has_keys keys record →
  ∃ t, tuple_of (dict_getitem record) keys = Ok t ∧ aligned keys record t.
Proof.
  unfold has_keys, aligned. induction 1 as [|k keys [v Hv] _ (t & Ht & Hal)]; simpl.
  - eexists. split; [done|constructor].
  - unfold dict_getitem at 1. rewrite Hv, Ht.
    eexists. split; [done|]. by constructor.
Qed.

Lemma tuple_of_missing record seen key rest :
  has_keys seen record →
  dict_get record key = None →
  tuple_of (dict_getitem record) (seen ++ key :: rest) = Raise (KeyError key).
Proof.
  unfold has_keys. induction 1 as [|k seen [v Hv] _ IH]; intros Hkey; simpl.
  - unfold dict_getitem. by rewrite Hkey.
  - unfold dict_getitem at 1. rewrite Hv. by rewrite IH.
Qed.


Lemma tuples_of_good keys records :
  Forall (has_keys keys) records →
  ∃ ts, Forall2 (λ r t, tuple_of (dict_getitem r) keys = Ok t) records ts
        ∧ Forall2 (aligned keys) records ts.
Proof.
  induction 1 as [|r records Hr _ (ts & Hts & Hal)].
  - exists []. split; constructor.
  - destruct (tuple_of_has_keys r keys Hr) as (t & Ht & Halt).
    exists (t :: ts). split; by constructor.
Qed.

Lemma dict_get_own_key (d : pydict) k : k ∈ dict_keys d → is_Some (dict_get d k).
Proof.
  unfold dict_keys. induction d as [|[k' v] d IH]; simpl.
  - by intros ?%elem_of_nil.
  - intros Hin. case_decide; [eauto|].
    apply IH. apply elem_of_cons in Hin as [->|Hin]; done.
Qed.

Lemma has_own_keys (d : pydict) : has_keys (dict_keys d) d.
Proof. apply Forall_forall. intros k. apply dict_get_own_key. Qed.

(** ** From the parsed document to the tuples *)

#[local] Instance PDict_inj : Inj (=) (=) PDict.
Proof. by intros ?? [= ->]. Qed.

Lemma as_document_inj rows records :
  as_document rows = as_document records → rows = records.
Proof. unfold as_document. intros [= H]. by apply (inj (fmap PDict)) in H. Qed.

Lemma parsed_inv file_name st fmt data st' :
  parsed file_name st fmt data st' →
  match fmt with
  | CSV => ∃ rows, data = as_document rows
                   ∧ endswith (lower file_name) ".csv" = true
                   ∧ load_csv csv_DictReader data_dir fs file_name st = (Ok rows, st')
  | JSON => endswith (lower file_name) ".json" = true
            ∧ load_json json_load data_dir fs file_name st = (Ok data, st')
  | YAML => endswith (lower file_name) ".yaml" || endswith (lower file_name) ".yml" = true
            ∧ load_yaml yaml_safe_load data_dir fs file_name st = (Ok data, st')
  end.
Proof. destruct 1; eauto. Qed.

(** All three formats end in the same computation on the records. *)
Lemma load_test_data_parsed file_name st fmt records st' :
  parsed file_name st fmt (as_document records) st' →
  load_test_data file_name st = (materialize records, st').
Proof.
  destruct (suffixes_exclusive (lower file_name)) as (Hjson & Hyaml & Hyml).
  unfold DataLoader.load_test_data, materialize.
  intros H. apply parsed_inv in H. destruct fmt.
  - destruct H as (rows & Hdoc & Hext & Hload).
    apply as_document_inj in Hdoc as ->. rewrite Hext.
    unfold _load_test_data_from_csv, bind. rewrite Hload.
    destruct rows as [|first rows]; [reflexivity|].
    unfold lift. by rewrite for_append_each_nil.
  - destruct H as [Hext Hload].
    rewrite (Hjson Hext), Hext.
    unfold _load_test_data_from_json, bind. rewrite Hload.
    destruct records as [|first records]; [reflexivity|].
    change (as_document (first :: records))
      with (PList (PDict first :: (PDict <$> records))).
    unfold lift. cbv beta iota. simpl py_keys. cbv beta iota.
    change (PDict first :: (PDict <$> records)) with (PDict <$> first :: records).
    by rewrite for_append_document, for_append_each_nil.
  - destruct H as [Hext Hload].
    assert (endswith (lower file_name) ".csv" = false
            ∧ endswith (lower file_name) ".json" = false) as [-> ->].
    { apply orb_true_iff in Hext as [?|?]; auto. }
    rewrite Hext.
    unfold _load_test_data_from_yaml, bind. rewrite Hload.
    destruct records as [|first records]; [reflexivity|].
    change (as_document (first :: records))
      with (PList (PDict first :: (PDict <$> records))).
    unfold lift. cbv beta iota. simpl py_keys. cbv beta iota.
    change (PDict first :: (PDict <$> records)) with (PDict <$> first :: records).
    by rewrite for_append_document, for_append_each_nil.
Qed.

(** ** Files and documents *)

Lemma yml_not_yaml (s : string) :
  endswith s ".yml" = true → endswith s ".yaml" = false.
Proof.
  unfold endswith. generalize (String.rev s). intros r.
  change (String.rev ".yaml") with "lmay.".
  change (String.rev ".yml") with "lmy.".
  destruct r as [|c1 [|c2 [|c3 r]]]; cbn -[ascii_dec];
    repeat (destruct (ascii_dec _ _); subst; cbn -[ascii_dec]); done.
Qed.

(** A file name that carries the extension is looked up as it is. *)
Lemma get_file_path_present file_name ext st node :
  endswith (lower file_name) ext = true →
  fs !! os_path_join data_dir file_name = Some node →
  _get_file_path data_dir fs file_name (Some ext) st
  = (Ok (os_path_join data_dir file_name),
     set_trace (λ t, t ++ [Probe (os_path_join data_dir file_name)]) st).
Proof.
  intros Hext Hfile. unfold _get_file_path, bind, os_path_exists.
  rewrite Hext, andb_false_r, Hfile.
  by rewrite bool_decide_eq_true_2 by eauto.
Qed.

Lemma load_csv_file file_name st content rows :
  let path := os_path_join data_dir file_name in
  endswith (lower file_name) ".csv" = true →
  fs !! path = Some (Readable content) →
  csv_DictReader content = inr rows →
  load_csv csv_DictReader data_dir fs file_name st
  = (Ok rows,
     set_log (λ l, l ++ [(INFO, "Loaded " +:+ pretty (length rows)
                                +:+ " rows from CSV file: " +:+ path)])
       (set_trace (λ t, t ++ [Probe path; Open path]) st)).
Proof.
  intros path Hext Hfile Hparse. unfold load_csv, bind.
  rewrite (get_file_path_present _ _ _ _ Hext Hfile). fold path.
  unfold open_, read_file. rewrite Hfile. simpl. rewrite Hparse.
  destruct st as [c h t l]. unfold logger_info, ret, set_log, set_trace; simpl.
  by rewrite <- app_assoc.
Qed.

Lemma load_json_file file_name st content data :
  let path := os_path_join data_dir file_name in
  endswith (lower file_name) ".json" = true →
  fs !! path = Some (Readable content) →
  json_load content = inr data →
  load_json json_load data_dir fs file_name st
  = (Ok data,
     set_log (λ l, l ++ [(INFO, "Loaded JSON data from file: " +:+ path)])
       (set_trace (λ t, t ++ [Probe path; Open path]) st)).
Proof.
  intros path Hext Hfile Hparse. unfold load_json, bind.
  rewrite (get_file_path_present _ _ _ _ Hext Hfile). fold path.
  unfold open_, read_file. rewrite Hfile. simpl. rewrite Hparse.
  destruct st as [c h t l]. unfold logger_info, ret, set_log, set_trace; simpl.
  by rewrite <- app_assoc.
Qed.

Lemma load_yaml_file file_name st content data :
  let path := os_path_join data_dir file_name in
  endswith (lower file_name) ".yaml" = true →
  fs !! path = Some (Readable content) →
  yaml_safe_load path content = inr data →
  load_yaml yaml_safe_load data_dir fs file_name st
  = (Ok data,
     set_log (λ l, l ++ [(INFO, "Loaded YAML data from file: " +:+ path)])
       (set_trace (λ t, t ++ [Probe path; Open path]) st)).
Proof.
  intros path Hext Hfile Hparse.
  unfold load_yaml, bind, except_FileNotFoundError, try_except.
  rewrite (get_file_path_present _ _ _ _ Hext Hfile). fold path.
  unfold open_, read_file. rewrite Hfile. simpl. rewrite Hparse.
  destruct st as [c h t l]. unfold logger_info, ret, set_log, set_trace; simpl.
  by rewrite <- app_assoc.
Qed.

(** A [.yml] name is first tried with [.yaml] appended; only when that
    path does not exist is the file itself looked up. *)
Lemma load_yml_file file_name st content data :
  let path := os_path_join data_dir file_name in
  let longer := os_path_join data_dir (file_name +:+ ".yaml") in
  endswith (lower file_name) ".yml" = true →
  fs !! longer = None →
  fs !! path = Some (Readable content) →
  yaml_safe_load path content = inr data →
  load_yaml yaml_safe_load data_dir fs file_name st
  = (Ok data,
     set_log (λ l, l ++ [(INFO, "Loaded YAML data from file: " +:+ path)])
       (set_trace (λ t, t ++ [Probe longer; Probe path; Open path]) st)).
Proof.
  intros path longer Hext Hlonger Hfile Hparse.
  unfold load_yaml, bind, except_FileNotFoundError, try_except.
  unfold _get_file_path at 1. rewrite (yml_not_yaml _ Hext). simpl.
  unfold bind, os_path_exists. fold longer. rewrite Hlonger.
  rewrite bool_decide_eq_false_2 by by intros [??]. simpl.
  rewrite (get_file_path_present _ _ _ _ Hext Hfile). fold path.
  unfold open_, read_file. rewrite Hfile. simpl. rewrite Hparse.
  destruct st as [c h t l]. unfold logger_info, ret, set_log, set_trace; simpl.
  by rewrite <- !app_assoc.
Qed.

(** So a readable, well-formed file of each format is [parsed]. *)
Lemma parsed_file file_name st fmt content :
  let path := os_path_join data_dir file_name in
  fs !! path = Some (Readable content) →
  match fmt with
  | CSV => ∀ rows,
      endswith (lower file_name) ".csv" = true →
      csv_DictReader content = inr rows →
      ∃ st', parsed file_name st CSV (as_document rows) st'
  | JSON => ∀ data,
      endswith (lower file_name) ".json" = true →
      json_load content = inr data →
      ∃ st', parsed file_name st JSON data st'
  | YAML => ∀ data,
      endswith (lower file_name) ".yaml" = true
      ∨ (endswith (lower file_name) ".yml" = true
         ∧ fs !! os_path_join data_dir (file_name +:+ ".yaml") = None) →
      yaml_safe_load path content = inr data →
      ∃ st', parsed file_name st YAML data st'
  end.
Proof.
  intros path Hfile. destruct fmt.
  - intros rows Hext Hparse. eexists. constructor; [done|].
    by eapply load_csv_file.
  - intros data Hext Hparse. eexists. constructor; [done|].
    by eapply load_json_file.
  - intros data [Hext | [Hext Hlonger]] Hparse; eexists; constructor.
    + by rewrite Hext.
    + by eapply load_yaml_file.
    + rewrite Hext. apply orb_true_r.
    + by eapply load_yml_file.
Qed.

Lemma string_app_empty_r (s : string) : s +:+ "" = s.
Proof.
  induction s as [|c s IH]; [done|].
  change (String c s +:+ "") with (String c (s +:+ "")). by rewrite IH.
Qed.

Lemma occurs_in_end (sub a : string) : occurs_in sub (a +:+ sub) = true.
Proof.
  pose proof (occurs_in_app sub a "") as H. by rewrite string_app_empty_r in H.
Qed.

(** ** The claims *)



(** The loop at the first record that lacks a key of the first record,
    [key] being the first key it lacks. *)
Lemma loop_stops_at_short_record file_name st fmt st' first pre bad post
    seen key rest :
  parsed file_name st fmt (as_document (first :: pre ++ bad :: post)) st' →
  Forall (has_keys (dict_keys first)) pre →
  dict_keys first = seen ++ key :: rest →
  has_keys seen bad →
  dict_get bad key = None →
  load_test_data file_name st = (Raise (KeyError key), st')
  ∧ ∃ result,
      for_append (λ item, tuple_of (py_getitem item) (dict_keys first))
        (PDict <$> first :: pre ++ bad :: post) []
      = inl (KeyError key, result)
      ∧ Forall2 (aligned (dict_keys first)) (first :: pre) result.
Proof.
  intros Hparsed Hpre Hkeys Hseen Hkey.
  assert (Forall (has_keys (dict_keys first)) (first :: pre)) as Hgood.
  { constructor; [apply has_own_keys|done]. }
  destruct (tuples_of_good _ _ Hgood) as (ts & Hmk & Hal).
  assert (for_append (λ row, tuple_of (dict_getitem row) (dict_keys first))
            ((first :: pre) ++ bad :: post) []
          = inl (KeyError key, ts)) as Hloop.
  { apply (for_append_raises _ _ _ _ _ _ [] Hmk).
    rewrite Hkeys. by apply tuple_of_missing. }
  split.
  - rewrite (load_test_data_parsed _ _ _ _ _ Hparsed). unfold materialize.
    rewrite <- for_append_each_nil. simpl columns.
    change (first :: pre ++ bad :: post) with ((first :: pre) ++ bad :: post).
    by rewrite Hloop.
  - exists ts. split; [|done].
    rewrite for_append_document.
    change (first :: pre ++ bad :: post) with ((first :: pre) ++ bad :: post).
    exact Hloop.
Qed.

Lemma first_missing_key keys record :
  ¬ has_keys keys record →
  ∃ seen key rest,
    keys = seen ++ key :: rest ∧ has_keys seen record ∧ dict_get record key = None.
Proof.
  induction keys as [|k keys IH]; intros Hnot.
  - destruct Hnot. constructor.
  - destruct (dict_get record k) as [v|] eqn:Hk.
    + destruct IH as (seen & key & rest & -> & Hseen & Hkey).
      { intros Hall. apply Hnot. constructor; [by rewrite Hk|done]. }
      exists (k :: seen), key, rest. split; [done|]. split; [|done].
      constructor; [by rewrite Hk|done].
    + exists [], k, keys. split; [done|]. split; [constructor|done].
Qed.

Lemma first_short_record keys records :
  ¬ Forall (has_keys keys) records →
  ∃ pre bad post,
    records = pre ++ bad :: post
    ∧ Forall (has_keys keys) pre ∧ ¬ has_keys keys bad.
Proof.
  induction records as [|r records IH]; intros Hnot.
  - destruct Hnot. constructor.
  - destruct (decide (has_keys keys r)) as [Hr|Hr].
    + destruct IH as (pre & bad & post & -> & Hpre & Hbad).
      { intros Hall. apply Hnot. by constructor. }
      exists (r :: pre), bad, post. split; [done|]. split; [by constructor|done].
    + exists [], r, records. split; [done|]. split; [constructor|done].
Qed.

(** C5.  Let a JSON or YAML file hold a sequence of mappings in which some
    record after the first lacks a key of the first record.  Then the
    records split as [pre ++ bad :: post], with [bad] the first such record
    (it is the given one when all before it are complete) and [pre] not
    empty.  The loader has already returned (the state is the one it left),
    the loop has appended one tuple for each record of [pre] and is at [bad]
    when the [KeyError] for the first key [bad] lacks is raised; the call
    returns no tuples, only the exception. *)
Theorem short_record_raises_late file_name st fmt st' records i record key :
  fmt = JSON ∨ fmt = YAML →
  parsed file_name st fmt (as_document records) st' →
  0 < i →
  records !! i = Some record →
  key ∈ columns records →
  dict_get record key = None →
  ∃ pre bad post missing result,
    records = pre ++ bad :: post
    ∧ 0 < length pre ≤ i
    ∧ (Forall (has_keys (columns records)) (take i records) →
       length pre = i ∧ bad = record)
    ∧ Forall (has_keys (columns records)) pre
    ∧ missing ∈ columns records
    ∧ dict_get bad missing = None
    ∧ load_test_data file_name st = (Raise (KeyError missing), st')
    ∧ for_append (λ item, tuple_of (py_getitem item) (columns records))
        (PDict <$> records) []
      = inl (KeyError missing, result)
    ∧ Forall2 (aligned (columns records)) pre result.
Proof.
  intros _ Hparsed Hi Hrecord Hin Hkey.
  assert (¬ has_keys (columns records) record) as Hshort.
  { intros Hall. eapply Forall_forall in Hall; [|exact Hin].
    rewrite Hkey in Hall. by destruct Hall. }
  destruct (first_short_record (columns records) records)
    as (pre & bad & post & Hsplit & Hpre & Hbad).
  { intros Hall. apply Hshort. eapply Forall_forall in Hall; [exact Hall|].
    by eapply list_elem_of_lookup_2. }
  destruct (first_missing_key _ _ Hbad) as (seen & missing & rest & Hcols & Hseen & Hmiss).
  destruct pre as [|first pre].
  { subst records. simpl in Hbad. destruct Hbad. apply has_own_keys. }
  assert (length (first :: pre) ≤ i) as Hle.
  { destruct (decide (length (first :: pre) ≤ i)) as [|Hgt]; [done|].
    destruct Hshort. eapply Forall_forall in Hpre; [exact Hpre|].
    rewrite Hsplit in Hrecord. rewrite lookup_app_l in Hrecord by lia.
    by eapply list_elem_of_lookup_2. }
  exists (first :: pre), bad, post, missing.
  subst records. simpl columns in *.
  apply Forall_cons in Hpre as [_ Hpre].
  destruct (loop_stops_at_short_record _ _ _ _ _ _ _ _ _ _ _
              Hparsed Hpre Hcols Hseen Hmiss) as (Hload & result & Hloop & Hal).
  assert (Forall (has_keys (dict_keys first)) (take i (first :: pre ++ bad :: post)) →
          length (first :: pre) = i ∧ bad = record) as Hfirst.
  { intros Htake.
    assert (length (first :: pre) = i) as Hlen.
    { destruct (decide (length (first :: pre) = i)) as [|Hne]; [done|].
      destruct Hbad. eapply Forall_forall in Htake; [exact Htake|].
      apply (list_elem_of_lookup_2 _ (length (first :: pre))).
      rewrite lookup_take_lt by lia.
      change (first :: pre ++ bad :: post) with ((first :: pre) ++ bad :: post).
      by rewrite list_lookup_middle. }
    split; [done|].
    rewrite <- Hlen, list_lookup_middle in Hrecord by done. by injection Hrecord. }
  assert (missing ∈ dict_keys first) as Hmissing.
  { rewrite Hcols. apply elem_of_app. right. by left. }
  exists result.
  split; [done|]. split; [split; [simpl; lia|exact Hle]|].
  split; [exact Hfirst|]. split; [by constructor; [apply has_own_keys|]|].
  done.
Qed.

(** C6.  Let the loader of a JSON or YAML file have returned a value that
    is not a list.  Then [load_test_data] raises the [ValueError] of its
    format, whose message ends in the file name; it does not return, so in
    particular not an empty list.  (A CSV file always yields a list.) *)
Theorem non_sequence_is_rejected file_name st fmt data st' :
  parsed file_name st fmt data st' →
  isinstance_list data = false →
  (fmt = JSON ∨ fmt = YAML)
  ∧ ∃ msg,
      load_test_data file_name st = (Raise (ValueError msg), st')
      ∧ msg = format_name fmt +:+ " test data must be a list of objects: " +:+ file_name
      ∧ occurs_in file_name msg = true.
Proof.
  destruct (suffixes_exclusive (lower file_name)) as (Hjson & Hyaml & Hyml).
  intros H Hlist. apply parsed_inv in H. destruct fmt.
  - destruct H as (rows & -> & _). discriminate Hlist.
  - destruct H as [Hext Hload]. split; [by left|].
    eexists. split; [|split; [reflexivity|]].
    + unfold DataLoader.load_test_data. rewrite (Hjson Hext), Hext.
      unfold _load_test_data_from_json, bind. rewrite Hload.
      by destruct data.
    + rewrite <- string_app_assoc. apply occurs_in_end.
  - destruct H as [Hext Hload]. split; [by right|].
    eexists. split; [|split; [reflexivity|]].
    + assert (endswith (lower file_name) ".csv" = false
              ∧ endswith (lower file_name) ".json" = false) as [Hc Hj].
      { apply orb_true_iff in Hext as [?|?]; auto. }
      unfold DataLoader.load_test_data. rewrite Hc, Hj, Hext.
      unfold _load_test_data_from_yaml, bind. rewrite Hload.
      by destruct data.
    + rewrite <- string_app_assoc. apply occurs_in_end.
Qed.

(** C7.  When a CSV file, a JSON file and a YAML file hold the same
    sequence of records, [load_test_data] returns the same result for the
    three, the one [materialize] describes, be it tuples or an exception.
    For the rows [{"a":"1","b":"2"}, {"a":"3","b":"4"}] that result is
    [[("1","2"), ("3","4")]]. *)
Theorem formats_agree records csv_file json_file yaml_file
    st_csv st_json st_yaml st_csv' st_json' st_yaml' :
  parsed csv_file st_csv CSV (as_document records) st_csv' →
  parsed json_file st_json JSON (as_document records) st_json' →
  parsed yaml_file st_yaml YAML (as_document records) st_yaml' →
  (load_test_data csv_file st_csv).1 = materialize records
  ∧ (load_test_data json_file st_json).1 = materialize records
  ∧ (load_test_data yaml_file st_yaml).1 = materialize records
  ∧ (records = [[(KStr "a", PStr "1"); (KStr "b", PStr "2")];
                [(KStr "a", PStr "3"); (KStr "b", PStr "4")]] →
     materialize records = Ok [[PStr "1"; PStr "2"]; [PStr "3"; PStr "4"]]).
Proof.
  intros Hcsv Hjson Hyaml.
  rewrite (load_test_data_parsed _ _ _ _ _ Hcsv).
  rewrite (load_test_data_parsed _ _ _ _ _ Hjson).
  rewrite (load_test_data_parsed _ _ _ _ _ Hyaml).
  repeat split. by intros ->.
Qed.
End data_properties.

(** ** The test-data properties on the fixtures *)


Lemma short_record_raises_late_witness :
  let fs := Fixtures.files [("data/users.json", Fixtures.json_short_second)] in
  let st' := (Fixtures.load_test_data fs "users.json" fresh).2 in
  let short := [(KStr "a", PStr "3")] in
  let records := [Fixtures.row "1" "2"; short] in
  parsed Fixtures.csv_DictReader Fixtures.json_load Fixtures.yaml_safe_load
         "data" fs "users.json" fresh JSON (as_document records) st'
  ∧ records !! 1 = Some short
  ∧ KStr "b" ∈ columns records
  ∧ dict_get short (KStr "b") = None
  ∧ ∃ pre bad post missing result,
      records = pre ++ bad :: post
      ∧ 0 < length pre ≤ 1
      ∧ (Forall (has_keys (columns records)) (take 1 records) →
         length pre = 1 ∧ bad = short)
      ∧ Forall (has_keys (columns records)) pre
      ∧ missing ∈ columns records
      ∧ dict_get bad missing = None
      ∧ Fixtures.load_test_data fs "users.json" fresh
        = (Raise (KeyError missing), st')
      ∧ for_append (λ item, tuple_of (py_getitem item) (columns records))
          (PDict <$> records) []
        = inl (KeyError missing, result)
      ∧ Forall2 (aligned (columns records)) pre result.
Proof.
  assert (parsed Fixtures.csv_DictReader Fixtures.json_load Fixtures.yaml_safe_load
            "data" (Fixtures.files [("data/users.json", Fixtures.json_short_second)])
            "users.json" fresh JSON
            (as_document [Fixtures.row "1" "2"; [(KStr "a", PStr "3")]])
            (Fixtures.load_test_data
               (Fixtures.files [("data/users.json", Fixtures.json_short_second)])
               "users.json" fresh).2) as Hparsed.
  { constructor; vm_compute; reflexivity. }
  assert (KStr "b" ∈ columns [Fixtures.row "1" "2"; [(KStr "a", PStr "3")]]) as Hin.
  { right. left. }
  split; [exact Hparsed|]. split; [reflexivity|]. split; [exact Hin|].
  split; [reflexivity|].
  exact (short_record_raises_late Fixtures.csv_DictReader Fixtures.json_load
           Fixtures.yaml_safe_load "data" _ _ _ _ _ _ 1 _ (KStr "b")
           (or_introl eq_refl) Hparsed (le_n 1) eq_refl Hin eq_refl).
Defined.

Lemma non_sequence_is_rejected_witness :
  let fs := Fixtures.files [("data/users.json", Fixtures.json_object)] in
  let st' := (Fixtures.load_test_data fs "users.json" fresh).2 in
  let data := PDict (Fixtures.row "1" "2") in
  parsed Fixtures.csv_DictReader Fixtures.json_load Fixtures.yaml_safe_load
         "data" fs "users.json" fresh JSON data st'
  ∧ isinstance_list data = false
  ∧ ∃ msg,
      Fixtures.load_test_data fs "users.json" fresh = (Raise (ValueError msg), st')
      ∧ msg = "JSON test data must be a list of objects: users.json"
      ∧ occurs_in "users.json" msg = true.
Proof.
  assert (parsed Fixtures.csv_DictReader Fixtures.json_load Fixtures.yaml_safe_load
            "data" (Fixtures.files [("data/users.json", Fixtures.json_object)])
            "users.json" fresh JSON (PDict (Fixtures.row "1" "2"))
            (Fixtures.load_test_data
               (Fixtures.files [("data/users.json", Fixtures.json_object)])
               "users.json" fresh).2) as Hparsed.
  { constructor; vm_compute; reflexivity. }
  split; [exact Hparsed|]. split; [reflexivity|].
  exact (proj2 (non_sequence_is_rejected Fixtures.csv_DictReader Fixtures.json_load
                  Fixtures.yaml_safe_load "data" _ _ _ _ _ _ Hparsed eq_refl)).
Defined.

Lemma formats_agree_witness :
  let fs := Fixtures.files [("data/users.csv", Fixtures.csv_rows);
                            ("data/users.json", Fixtures.json_rows);
                            ("data/users.yml", Fixtures.yaml_rows)] in
  let expected := Ok [[PStr "1"; PStr "2"]; [PStr "3"; PStr "4"]] in
  parsed Fixtures.csv_DictReader Fixtures.json_load Fixtures.yaml_safe_load
         "data" fs "users.csv" fresh CSV (as_document Fixtures.rows_12_34)
         (Fixtures.load_test_data fs "users.csv" fresh).2
  ∧ parsed Fixtures.csv_DictReader Fixtures.json_load Fixtures.yaml_safe_load
           "data" fs "users.json" fresh JSON (as_document Fixtures.rows_12_34)
           (Fixtures.load_test_data fs "users.json" fresh).2
  ∧ parsed Fixtures.csv_DictReader Fixtures.json_load Fixtures.yaml_safe_load
           "data" fs "users.yml" fresh YAML (as_document Fixtures.rows_12_34)
           (Fixtures.load_test_data fs "users.yml" fresh).2
  ∧ (Fixtures.load_test_data fs "users.csv" fresh).1 = expected
  ∧ (Fixtures.load_test_data fs "users.json" fresh).1 = expected
  ∧ (Fixtures.load_test_data fs "users.yml" fresh).1 = expected.
Proof.
  set (fs := Fixtures.files [("data/users.csv", Fixtures.csv_rows);
                             ("data/users.json", Fixtures.json_rows);
                             ("data/users.yml", Fixtures.yaml_rows)]).
  assert (parsed Fixtures.csv_DictReader Fixtures.json_load Fixtures.yaml_safe_load
            "data" fs "users.csv" fresh CSV (as_document Fixtures.rows_12_34)
            (Fixtures.load_test_data fs "users.csv" fresh).2) as Hcsv.
  { constructor; vm_compute; reflexivity. }
  assert (parsed Fixtures.csv_DictReader Fixtures.json_load Fixtures.yaml_safe_load
            "data" fs "users.json" fresh JSON (as_document Fixtures.rows_12_34)
            (Fixtures.load_test_data fs "users.json" fresh).2) as Hjson.
  { constructor; vm_compute; reflexivity. }
  assert (parsed Fixtures.csv_DictReader Fixtures.json_load Fixtures.yaml_safe_load
            "data" fs "users.yml" fresh YAML (as_document Fixtures.rows_12_34)
            (Fixtures.load_test_data fs "users.yml" fresh).2) as Hyaml.
  { constructor; vm_compute; reflexivity. }
  destruct (formats_agree Fixtures.csv_DictReader Fixtures.json_load
              Fixtures.yaml_safe_load "data" fs _ _ _ _ _ _ _ _ _ _ Hcsv Hjson Hyaml)
    as (H1 & H2 & H3 & H4).
  specialize (H4 eq_refl).
  cbv zeta. rewrite <- H4.
  repeat split; assumption.
Defined.

(** * Further properties of [ConfigLoader] *)

Section more_config_properties.
Import ConfigLoader.
Variable yaml_safe_load : string → string → lib_exn + pyval.
Variable json_load : string → lib_exn + pyval.
Variable config_dir : string.

Local Abbreviation try_load := (_try_load_config yaml_safe_load json_load config_dir).
Local Abbreviation load := (load_config yaml_safe_load json_load config_dir).
Local Abbreviation parse := (parse_as yaml_safe_load json_load).
Local Abbreviation url := (get_environment_url yaml_safe_load json_load config_dir).

(** ** What one search and one call do to cache and heap *)

(** A search returns [None] or raises and leaves the heap alone, or returns
    a new object at the end of the heap. *)
Lemma try_load_step fs config_name st res st' :
  try_load fs config_name st = (res, st') →
  config_cache st' = config_cache st
  ∧ ((heap st' = heap st ∧ (res = Ok NoneRef ∨ ∃ e, res = Raise e))
     ∨ (∃ data, data ≠ PNone ∧ res = Ok (Ref (length (heap st)))
                ∧ heap st' = heap st ++ [data])).
Proof.
  rewrite try_load_eq. cbv zeta.
  destruct (select _ _ _) as [[path f]|].
  - rewrite load_as_eq. destruct (parse_with _ _) as [e|data]; intros [= <- <-].
    + split; [done|]. left. split; [done|]. right. eauto.
    + destruct data; simpl; (split; [done|]);
        first [ by left; split; [done|left]
              | right; eexists; split; [|split; reflexivity]; done ].
  - intros [= <- <-]. split; [done|]. left. split; [done|]. by left.
Qed.

Lemma load_step fs config_name environment st res st' :
  load fs config_name environment st = (res, st') →
  (config_cache st' = config_cache st ∧ heap st' = heap st)
  ∨ (∃ data,
       data ≠ PNone
       ∧ config_cache st !! cache_key config_name environment = None
       ∧ res = Ok (Ref (length (heap st)))
       ∧ config_cache st'
         = <[cache_key config_name environment := Ref (length (heap st))]>
             (config_cache st)
       ∧ heap st' = heap st ++ [data]).
Proof.
  destruct (config_cache st !! cache_key config_name environment) as [r|] eqn:Hc.
  { rewrite (load_hit _ _ _ _ _ _ _ _ Hc). intros [= <- <-]. by left. }
  rewrite (load_miss _ _ _ _ _ _ _ Hc).
  destruct (try_load _ _ _) as [[r1|e1] st1] eqn:E1;
    apply try_load_step in E1 as (Hc1 & Hh1).
  2:{ intros [= <- <-]. left.
      destruct Hh1 as [[Hh1 _] | (d & _ & [=] & _)]. done. }
  destruct Hh1 as [[Hh1 [[= ->] | [e [=]]]] | (d & Hd & [= ->] & Hh1)].
  - rewrite bool_decide_eq_true_2 by done. simpl.
    destruct (negb (String.eqb environment "default")).
    + destruct (try_load fs config_name st1) as [[r2|e2] st2] eqn:E2;
        apply try_load_step in E2 as (Hc2 & Hh2).
      2:{ intros [= <- <-]. left.
          destruct Hh2 as [[Hh2 _] | (d & _ & [=] & _)].
          by rewrite Hc2, Hc1, Hh2, Hh1. }
      destruct Hh2 as [[Hh2 [[= ->] | [e [=]]]] | (d & Hd & [= ->] & Hh2)].
      * rewrite bool_decide_eq_true_2 by done. intros [= <- <-]. left.
        by rewrite Hc2, Hc1, Hh2, Hh1.
      * rewrite bool_decide_eq_false_2 by done. intros [= <- <-]. right.
        exists d. simpl. rewrite Hc2, Hc1, Hh2, Hh1. done.
    + rewrite bool_decide_eq_true_2 by done. intros [= <- <-]. left.
      by rewrite Hc1, Hh1.
  - rewrite bool_decide_eq_false_2 by done. simpl.
    intros [= <- <-]. right.
    exists d. simpl. rewrite Hc1, Hh1. done.
Qed.

Lemma load_keeps_order fs config_name environment st res st' :
  cache_in_order st →
  load fs config_name environment st = (res, st') →
  cache_in_order st'.
Proof.
  intros Hlive Hload. unfold cache_in_order.
  apply load_step in Hload as [[Hc Hh] | (data & Hdata & Hmiss & _ & Hc & Hh)];
    rewrite Hc, Hh; [done|].
  intros key r.
  destruct (decide (cache_key config_name environment = key)) as [<-|Hne].
  - rewrite lookup_insert_eq. intros [= <-].
    exists (length (heap st)), data. by rewrite list_lookup_middle.
  - rewrite lookup_insert_ne by done. intros Hr.
    apply Hlive in Hr as (l & v & -> & Hl & Hv).
    exists l, v. split; [done|]. split; [|done]. by apply lookup_app_l_Some.
Qed.

(** X1.  The cache of a new loader stays in order whatever is asked of it, with
    whatever files: [None] is never cached, and what [load_config] returns,
    from a file or from the cache, is always an object on the heap and never
    [None]. *)
Theorem cache_stays_in_order calls :
  let st := run_calls load calls fresh in
  cache_in_order st
  ∧ ∀ fs config_name environment r st',
      load fs config_name environment st = (Ok r, st') →
      ∃ l v, r = Ref l ∧ deref st' r = Some v ∧ v ≠ PNone.
Proof.
  assert (∀ st, cache_in_order st → cache_in_order (run_calls load calls st)) as Hrun.
  { induction calls as [|c calls' IH]; intros st Hst; simpl; [done|].
    apply IH.
    destruct (load (call_fs c) (call_name c) (call_environment c) st)
      as [res st'] eqn:E.
    by eapply load_keeps_order. }
  assert (cache_in_order fresh) as Hfresh.
  { intros key r Hr. simpl in Hr. by rewrite lookup_empty in Hr. }
  intros st. split; [by apply Hrun|].
  intros fs config_name environment r st' Hload.
  assert (cache_in_order st') as Hlive.
  { eapply load_keeps_order; [|exact Hload]. by apply Hrun. }
  apply load_caches in Hload.
  apply Hlive in Hload as (l & v & -> & Hl & Hv). eauto.
Qed.

(** ** The environment's own file *)

(** X2.  The file found for [{name}_{environment}] is what the call returns and
    caches under the pair's key; opening it is the last file-system call, so
    no path of the default file [{name}.*] is looked at. *)
Theorem environment_file_wins fs config_name environment st path f content data :
  config_cache st !! cache_key config_name environment = None →
  select fs config_dir (config_name +:+ "_" +:+ environment) = Some (path, f) →
  fs !! path = Some (Readable content) →
  parse f path content = inr data →
  data ≠ PNone →
  ∃ r st' evs,
    load fs config_name environment st = (Ok r, st')
    ∧ deref st' r = Some data
    ∧ config_cache st' !! cache_key config_name environment = Some r
    ∧ trace st' = trace st ++ evs
    ∧ last evs = Some (Open path)
    ∧ Forall (λ ev, event_path ev ∉ candidates config_dir config_name) evs.
Proof.
  intros Hmiss Hsel Hfile Hparse Hdata.
  rewrite (load_miss _ _ _ _ _ _ _ Hmiss).
  rewrite (try_load_selected _ _ _ _ _ _ _ _ _ _ Hsel Hfile Hparse).
  assert (new_ref data st = Ref (length (heap st))) as -> by by destruct data.
  simpl.
  exists (Ref (length (heap st))),
         (set_cache <[cache_key config_name environment := Ref (length (heap st))]>
            (set_log (λ l, l ++ [(INFO, "Loaded " +:+ parser_name f
                                       +:+ " configuration from " +:+ path)])
               (store data
                  (set_trace
                     (λ t, t ++ probes fs config_dir
                                  (config_name +:+ "_" +:+ environment)
                             ++ [Open path]) st)))),
         (probes fs config_dir (config_name +:+ "_" +:+ environment) ++ [Open path]).
  split; [done|].
  split; [destruct data; try done; simpl; by rewrite list_lookup_middle|].
  split; [simpl; by rewrite lookup_insert_eq|].
  split; [by destruct data|]. split; [by rewrite last_snoc|].
  assert (Forall (λ ev, event_path ev
                        ∈ candidates config_dir (config_name +:+ "_" +:+ environment))
            (probes fs config_dir (config_name +:+ "_" +:+ environment) ++ [Open path]))
    as Hin.
  { generalize (touched_paths yaml_safe_load json_load config_dir fs
                  (config_name +:+ "_" +:+ environment)).
    unfold touched. by rewrite Hsel. }
  eapply Forall_impl; [exact Hin|].
  intros ev Hev Hev'. simpl in Hev.
  exact (candidate_env_ne _ _ _ _ Hev Hev').
Qed.

(** X3.  A file for [{name}_{environment}] that holds the null document counts
    as no file.  It is opened and logged as loaded, and then: with the
    environment ["default"] the call reports not-found; with another
    environment the search goes on to [{name}.*], whose file, if good, is
    what the call returns and caches, and whose absence is not-found. *)
Theorem null_environment_file_is_no_file fs config_name environment st path f content :
  config_cache st !! cache_key config_name environment = None →
  select fs config_dir (config_name +:+ "_" +:+ environment) = Some (path, f) →
  fs !! path = Some (Readable content) →
  parse f path content = inr PNone →
  (environment = "default" →
   ∃ st', load fs config_name environment st
          = (Raise (not_found config_name environment), st')
          ∧ opened (drop (length (trace st)) (trace st')) = [path])
  ∧ (environment ≠ "default" →
     select fs config_dir config_name = None →
     ∃ st', load fs config_name environment st
            = (Raise (not_found config_name environment), st')
            ∧ opened (drop (length (trace st)) (trace st')) = [path])
  ∧ (environment ≠ "default" →
     ∀ path2 f2 content2 data,
       select fs config_dir config_name = Some (path2, f2) →
       fs !! path2 = Some (Readable content2) →
       parse f2 path2 content2 = inr data →
       data ≠ PNone →
       ∃ r st', load fs config_name environment st = (Ok r, st')
                ∧ deref st' r = Some data
                ∧ config_cache st' !! cache_key config_name environment = Some r
                ∧ opened (drop (length (trace st)) (trace st')) = [path; path2]).
Proof.
  intros Hmiss Hsel Hfile Hparse.
  rewrite (load_miss _ _ _ _ _ _ _ Hmiss).
  rewrite (try_load_selected _ _ _ _ _ _ _ _ _ _ Hsel Hfile Hparse).
  simpl new_ref. rewrite bool_decide_eq_true_2 by done.
  assert (∀ t : list fs_event,
             opened (drop (length t)
                       (t ++ probes fs config_dir (config_name +:+ "_" +:+ environment)
                          ++ [Open path])) = [path]) as Hopen1.
  { intros t. rewrite drop_app_length, opened_app, opened_probes. done. }
  split; [|split].
  - intros ->. simpl. eexists. split; [reflexivity|]. simpl. apply Hopen1.
  - intros Hne%String.eqb_neq Hnone. rewrite Hne. simpl.
    rewrite (try_load_none _ _ _ _ _ _ Hnone).
    rewrite bool_decide_eq_true_2 by done.
    eexists. split; [reflexivity|]. simpl.
    rewrite <- app_assoc, drop_app_length, !opened_app, opened_probes. done.
  - intros Hne%String.eqb_neq path2 f2 content2 data Hsel2 Hfile2 Hparse2 Hdata.
    rewrite Hne. simpl.
    rewrite (try_load_selected _ _ _ _ _ _ _ _ _ _ Hsel2 Hfile2 Hparse2).
    rewrite bool_decide_eq_false_2 by by rewrite new_ref_none.
    do 2 eexists. split; [reflexivity|]. split; [|split].
    + destruct data; simpl; try done; by rewrite list_lookup_middle.
    + simpl. apply lookup_insert_eq.
    + destruct data; try done; simpl;
        rewrite <- app_assoc, drop_app_length, !opened_app, !opened_probes; done.
Qed.

(** X4.  A candidate that exists but cannot be opened (a directory, a file
    without read permission) ends the call with [open]'s exception: the
    remaining extensions and the default file are not tried, nothing is
    cached, and the log names the path. *)
Theorem unreadable_file_stops_the_search fs config_name environment st path f e :
  config_cache st !! cache_key config_name environment = None →
  select fs config_dir (config_name +:+ "_" +:+ environment) = Some (path, f) →
  fs !! path = Some (Unreadable e) →
  load fs config_name environment st
  = (Raise (LibraryError e),
     State (config_cache st) (heap st)
           (trace st ++ probes fs config_dir (config_name +:+ "_" +:+ environment)
                     ++ [Open path])
           (log st ++ [(ERROR, "Failed to load " +:+ parser_name f
                               +:+ " configuration from " +:+ path
                               +:+ ": " +:+ exc_str e)])).
Proof.
  intros Hmiss Hsel Hfile.
  rewrite (load_miss _ _ _ _ _ _ _ Hmiss), try_load_eq, Hsel. cbv zeta.
  rewrite load_as_eq. unfold read_file. rewrite Hfile. simpl.
  destruct st as [c h t l]. unfold set_log, set_trace. simpl.
  by rewrite <- app_assoc.
Qed.

(** ** [get_environment_url] *)

Lemma url_of_loaded fs environment st r st' v :
  load fs "environment" environment st = (Ok r, st') →
  deref st' r = Some v →
  url fs environment st
  = (match v with
     | PDict d => Ok (default (PStr "") (dict_get d (KStr "base_url")))
     | _ => Raise (AttributeError (type_name v) "get")
     end, st').
Proof.
  intros Hload Hv. unfold get_environment_url, bind. rewrite Hload, Hv. simpl.
  by destruct v.
Qed.

(** X5.  [get_environment_url] answers with the [base_url] entry of the
    environment's mapping, with the empty string when the mapping has no
    such entry, and with an [AttributeError] when the document is not a
    mapping.  Either way the document is cached by then: every later call
    gives the same answer and touches no file, so an environment file that
    is not a mapping keeps failing after it has been put right on disk. *)
Theorem environment_url_is_settled_once fs environment st path f content v :
  config_cache st !! cache_key "environment" environment = None →
  select fs config_dir ("environment" +:+ "_" +:+ environment) = Some (path, f) →
  fs !! path = Some (Readable content) →
  parse f path content = inr v →
  v ≠ PNone →
  let answer :=
    match v with
    | PDict d => Ok (default (PStr "") (dict_get d (KStr "base_url")))
    | _ => Raise (AttributeError (type_name v) "get")
    end in
  ∃ st', url fs environment st = (answer, st')
         ∧ ∀ calls fs',
             let st2 := run_calls load calls st' in
             url fs' environment st2 = (answer, st2).
Proof.
  intros Hmiss Hsel Hfile Hparse Hv answer.
  assert (∃ r st', load fs "environment" environment st = (Ok r, st')
                   ∧ deref st' r = Some v) as (r & st' & Hload & Hr).
  { rewrite (load_miss _ _ _ _ _ _ _ Hmiss).
    rewrite (try_load_selected _ _ _ _ _ _ _ _ _ _ Hsel Hfile Hparse).
    rewrite bool_decide_eq_false_2 by by rewrite new_ref_none. simpl.
    rewrite bool_decide_eq_false_2 by by rewrite new_ref_none.
    do 2 eexists. split; [reflexivity|].
    destruct v; simpl; try done; by rewrite list_lookup_middle. }
  exists st'. split; [by apply (url_of_loaded _ _ _ r)|].
  intros calls fs' st2.
  assert (extends st' st2) as Hext by apply run_calls_extends.
  apply (url_of_loaded _ _ _ r).
  - apply load_hit. apply load_caches in Hload.
    destruct Hext as [Hsub _]. by eapply lookup_weaken.
  - by eapply deref_extends.
Qed.

(** ** Keys of names without underscore *)

Lemma occurs_underscore_cons c s :
  occurs_in "_" (String c s) = false → c ≠ "_"%char ∧ occurs_in "_" s = false.
Proof.
  cbn -[ascii_dec]. destruct (ascii_dec "_" c) as [<-|Hc].
  - by destruct s.
  - simpl. intros ->. split; [|done]. by intros ->.
Qed.

(** X6.  Two different pairs whose names hold no underscore never have the same
    cache key: a key then determines its name and its environment.  (The
    collisions of the cache need an underscore in a name.) *)
Theorem keys_of_plain_names_differ name1 env1 name2 env2 :
  occurs_in "_" name1 = false →
  occurs_in "_" name2 = false →
  (name1, env1) ≠ (name2, env2) →
  cache_key name1 env1 ≠ cache_key name2 env2.
Proof.
  intros H1 H2 Hne Hkey. apply Hne. clear Hne. unfold cache_key in Hkey.
  revert name2 H2 Hkey. induction name1 as [|c1 n1 IH]; intros [|c2 n2] H2 Hkey.
  - cbv [String.append] in Hkey. by injection Hkey as ->.
  - apply occurs_underscore_cons in H2 as [Hc _].
    cbv [String.append] in Hkey. injection Hkey as Heq _. by subst c2.
  - apply occurs_underscore_cons in H1 as [Hc _].
    cbv [String.append] in Hkey. injection Hkey as Heq _. by subst c1.
  - apply occurs_underscore_cons in H1 as [_ H1].
    apply occurs_underscore_cons in H2 as [_ H2].
    change (String c1 (n1 +:+ "_" +:+ env1) = String c2 (n2 +:+ "_" +:+ env2)) in Hkey.
    injection Hkey as -> Hkey. by injection (IH H1 n2 H2 Hkey) as -> ->.
Qed.
End more_config_properties.

(** * Further properties of [DataLoader] *)

Section more_data_properties.
Import DataLoader.
Variable csv_DictReader : string → lib_exn + list pydict.
Variable json_load : string → lib_exn + pyval.
Variable yaml_safe_load : string → string → lib_exn + pyval.
Variable data_dir : string.
Variable fs : filesystem.

Local Abbreviation load_test_data :=
  (DataLoader.load_test_data csv_DictReader json_load yaml_safe_load data_dir fs).
Local Abbreviation parsed :=
  (parsed csv_DictReader json_load yaml_safe_load data_dir fs).
Local Abbreviation get_path := (_get_file_path data_dir fs).

(** ** No state *)

Lemma stateless_intro {A} (m : M A) res evs records :
  (∀ st, m st = (res, State (config_cache st) (heap st)
                            (trace st ++ evs) (log st ++ records))) →
  stateless m.
Proof. intros H. by exists res, evs, records. Qed.

Lemma stateless_lift {A} (r : result A) : stateless (lift r).
Proof.
  apply (stateless_intro _ r [] []). intros [c h t l]. unfold lift. simpl.
  by rewrite !app_nil_r.
Qed.

Lemma stateless_ret {A} (a : A) : stateless (ret a).
Proof. apply (stateless_lift (Ok a)). Qed.

Lemma stateless_raise {A} e : stateless (raise (A:=A) e).
Proof. apply (stateless_lift (Raise e)). Qed.

Lemma stateless_bind {A B} (m : M A) (k : A → M B) :
  stateless m → (∀ a, stateless (k a)) → stateless (bind m k).
Proof.
  intros (res & evs & records & Hm) Hk. destruct res as [a|e].
  - destruct (Hk a) as (res' & evs' & records' & Hka).
    apply (stateless_intro _ res' (evs ++ evs') (records ++ records')).
    intros st. unfold bind. rewrite Hm, Hka. simpl. by rewrite !app_assoc.
  - apply (stateless_intro _ (Raise e) evs records).
    intros st. unfold bind. by rewrite Hm.
Qed.

Lemma stateless_try_except {A} (m : M A) (h : exn → M A) :
  stateless m → (∀ e, stateless (h e)) → stateless (try_except m h).
Proof.
  intros (res & evs & records & Hm) Hh. destruct res as [a|e].
  - apply (stateless_intro _ (Ok a) evs records).
    intros st. unfold try_except. by rewrite Hm.
  - destruct (Hh e) as (res' & evs' & records' & Hhe).
    apply (stateless_intro _ res' (evs ++ evs') (records ++ records')).
    intros st. unfold try_except. rewrite Hm, Hhe. simpl. by rewrite !app_assoc.
Qed.

Lemma stateless_exists path : stateless (os_path_exists fs path).
Proof.
  apply (stateless_intro _ (Ok (bool_decide (is_Some (fs !! path)))) [Probe path] []).
  intros [c h t l]. unfold os_path_exists, set_trace. simpl. by rewrite app_nil_r.
Qed.

Lemma stateless_open path : stateless (open_ path).
Proof.
  apply (stateless_intro _ (Ok ()) [Open path] []).
  intros [c h t l]. unfold open_, set_trace. simpl. by rewrite app_nil_r.
Qed.

Lemma stateless_info msg : stateless (logger_info msg).
Proof.
  apply (stateless_intro _ (Ok ()) [] [(INFO, msg)]).
  intros [c h t l]. unfold logger_info, set_log. simpl. by rewrite app_nil_r.
Qed.

Lemma stateless_error msg : stateless (logger_error msg).
Proof.
  apply (stateless_intro _ (Ok ()) [] [(ERROR, msg)]).
  intros [c h t l]. unfold logger_error, set_log. simpl. by rewrite app_nil_r.
Qed.

Ltac stateless_step :=
  first
    [ apply stateless_bind; [|intros ?]
    | apply stateless_try_except; [|intros ?]
    | apply stateless_exists
    | apply stateless_open
    | apply stateless_info
    | apply stateless_error
    | apply stateless_ret
    | apply stateless_raise
    | apply stateless_lift ].

Lemma stateless_get_file_path file_name extension :
  stateless (get_path file_name extension).
Proof.
  unfold _get_file_path. stateless_step; [stateless_step|].
  destruct (negb a); stateless_step.
Qed.

Lemma stateless_load_csv file_name :
  stateless (load_csv csv_DictReader data_dir fs file_name).
Proof.
  unfold load_csv. stateless_step; [apply stateless_get_file_path|].
  stateless_step; [stateless_step|].
  destruct (parse_with _ _) as [e|data]; [destruct (String.eqb _ _)|];
    repeat stateless_step.
Qed.

Lemma stateless_load_json file_name :
  stateless (load_json json_load data_dir fs file_name).
Proof.
  unfold load_json. stateless_step; [apply stateless_get_file_path|].
  stateless_step; [stateless_step|].
  destruct (parse_with _ _) as [e|data]; [destruct (String.eqb _ _)|];
    repeat stateless_step.
Qed.

Lemma stateless_load_yaml file_name :
  stateless (load_yaml yaml_safe_load data_dir fs file_name).
Proof.
  unfold load_yaml, except_FileNotFoundError.
  stateless_step.
  { stateless_step; [apply stateless_get_file_path|].
    destruct (is_FileNotFoundError _); [|stateless_step].
    stateless_step; [apply stateless_get_file_path|].
    destruct (is_FileNotFoundError _); repeat stateless_step. }
  stateless_step; [stateless_step|].
  destruct (parse_with _ _) as [e|data]; repeat stateless_step.
Qed.

(** X7.  [load_test_data] keeps no state and reads none: whatever was done
    before, a call for a file name gives one and the same result, makes the
    same [os.path.exists] and [open] calls again and writes the same log
    records, and it leaves the configuration cache and the heap untouched.
    Nothing is cached: every call reads the file anew. *)
Theorem data_loader_is_stateless file_name : stateless (load_test_data file_name).
Proof.
  unfold DataLoader.load_test_data.
  destruct (endswith _ ".csv").
  { unfold _load_test_data_from_csv.
    stateless_step; [apply stateless_load_csv|].
    destruct a; repeat stateless_step. }
  destruct (endswith _ ".json").
  { unfold _load_test_data_from_json.
    stateless_step; [apply stateless_load_json|].
    destruct a as [| | | |[|first items]|]; repeat stateless_step. }
  destruct (_ || _); [|stateless_step].
  unfold _load_test_data_from_yaml.
  stateless_step; [apply stateless_load_yaml|].
  destruct a as [| | | |[|first items]|]; repeat stateless_step.
Qed.

(** ** Which file is read *)

Lemma get_file_path_appends file_name ext st :
  ext ≠ "" →
  endswith (lower file_name) ext = false →
  get_path file_name (Some ext) st
  = (if bool_decide (is_Some (fs !! os_path_join data_dir (file_name +:+ ext)))
     then Ok (os_path_join data_dir (file_name +:+ ext))
     else Raise (FileNotFoundError
                   ("File not found: " +:+ os_path_join data_dir (file_name +:+ ext))),
     set_trace (λ t, t ++ [Probe (os_path_join data_dir (file_name +:+ ext))]) st).
Proof.
  intros Hext%String.eqb_neq Hends. unfold _get_file_path, bind, os_path_exists.
  rewrite Hext, Hends. simpl. by case_bool_decide.
Qed.

Lemma get_file_path_keeps file_name ext st :
  endswith (lower file_name) ext = true →
  get_path file_name (Some ext) st
  = (if bool_decide (is_Some (fs !! os_path_join data_dir file_name))
     then Ok (os_path_join data_dir file_name)
     else Raise (FileNotFoundError
                   ("File not found: " +:+ os_path_join data_dir file_name)),
     set_trace (λ t, t ++ [Probe (os_path_join data_dir file_name)]) st).
Proof.
  intros Hends. unfold _get_file_path, bind, os_path_exists.
  rewrite Hends, andb_false_r. by case_bool_decide.
Qed.

(** What [load_yaml] does once it has settled on a path. *)
Lemma load_yaml_at file_name st path evs content data :
  except_FileNotFoundError (get_path file_name (Some ".yaml"))
    (except_FileNotFoundError (get_path file_name (Some ".yml"))
       (logger_error ("YAML file not found: " +:+ file_name);;
        raise (FileNotFoundError ("YAML file not found: " +:+ file_name)))) st
  = (Ok path, set_trace (λ t, t ++ evs) st) →
  fs !! path = Some (Readable content) →
  yaml_safe_load path content = inr data →
  load_yaml yaml_safe_load data_dir fs file_name st
  = (Ok data,
     State (config_cache st) (heap st) (trace st ++ evs ++ [Open path])
           (log st ++ [(INFO, "Loaded YAML data from file: " +:+ path)])).
Proof.
  intros Hpath Hfile Hparse. unfold load_yaml, bind at 1. rewrite Hpath.
  unfold bind, open_, read_file. rewrite Hfile. simpl. rewrite Hparse.
  destruct st as [c h t l]. unfold logger_info, ret, set_log, set_trace. simpl.
  by rewrite <- app_assoc.
Qed.

(** X8.  [load_yaml] with a name that carries neither extension: [{name}.yaml]
    is read if it exists, also when [{name}.yml] exists; otherwise
    [{name}.yml]; with neither, the error names the file name as given, after
    the two paths have been looked for. *)
Theorem bare_yaml_name_resolution file_name st :
  endswith (lower file_name) ".yaml" = false →
  endswith (lower file_name) ".yml" = false →
  let yaml := os_path_join data_dir (file_name +:+ ".yaml") in
  let yml := os_path_join data_dir (file_name +:+ ".yml") in
  (∀ content data,
     fs !! yaml = Some (Readable content) →
     yaml_safe_load yaml content = inr data →
     load_yaml yaml_safe_load data_dir fs file_name st
     = (Ok data,
        State (config_cache st) (heap st) (trace st ++ [Probe yaml; Open yaml])
              (log st ++ [(INFO, "Loaded YAML data from file: " +:+ yaml)])))
  ∧ (∀ content data,
       fs !! yaml = None →
       fs !! yml = Some (Readable content) →
       yaml_safe_load yml content = inr data →
       load_yaml yaml_safe_load data_dir fs file_name st
       = (Ok data,
          State (config_cache st) (heap st)
                (trace st ++ [Probe yaml; Probe yml; Open yml])
                (log st ++ [(INFO, "Loaded YAML data from file: " +:+ yml)])))
  ∧ (fs !! yaml = None →
     fs !! yml = None →
     load_yaml yaml_safe_load data_dir fs file_name st
     = (Raise (FileNotFoundError ("YAML file not found: " +:+ file_name)),
        State (config_cache st) (heap st) (trace st ++ [Probe yaml; Probe yml])
              (log st ++ [(ERROR, "YAML file not found: " +:+ file_name)]))).
Proof.
  intros Hyaml Hyml yaml yml.
  assert (∀ p, fs !! p = None → bool_decide (is_Some (fs !! p)) = false) as Hno.
  { intros p Hp. rewrite Hp. apply bool_decide_eq_false_2. by intros [??]. }
  split; [|split].
  - intros content data Hfile Hparse.
    apply (load_yaml_at _ _ yaml [Probe yaml] content data); [|done..].
    unfold except_FileNotFoundError, try_except.
    rewrite get_file_path_appends by done. fold yaml.
    by rewrite bool_decide_eq_true_2 by (rewrite Hfile; eauto).
  - intros content data Hnone Hfile Hparse.
    apply (load_yaml_at _ _ yml [Probe yaml; Probe yml] content data); [|done..].
    unfold except_FileNotFoundError, try_except.
    rewrite get_file_path_appends by done. fold yaml. rewrite (Hno _ Hnone). simpl.
    rewrite get_file_path_appends by done. fold yml.
    rewrite bool_decide_eq_true_2 by (rewrite Hfile; eauto).
    destruct st as [c h t l]. unfold set_trace. simpl. by rewrite <- app_assoc.
  - intros Hnone1 Hnone2.
    unfold load_yaml, bind at 1, except_FileNotFoundError, try_except.
    rewrite get_file_path_appends by done. fold yaml. rewrite (Hno _ Hnone1). simpl.
    rewrite get_file_path_appends by done. fold yml. rewrite (Hno _ Hnone2). simpl.
    destruct st as [c h t l].
    unfold bind, logger_error, raise, set_log, set_trace. simpl.
    by rewrite <- app_assoc.
Qed.

(** X9.  A name ending in [.yml] is first looked for with [.yaml] appended.  If
    that file exists it is the one that is read, and the file of the name
    itself is not even looked for.  Likewise a name ending in [.yaml] whose
    file does not exist is looked for with [.yml] appended. *)
Theorem suffixed_file_stands_in file_name st content data :
  (endswith (lower file_name) ".yml" = true →
   let longer := os_path_join data_dir (file_name +:+ ".yaml") in
   fs !! longer = Some (Readable content) →
   yaml_safe_load longer content = inr data →
   load_yaml yaml_safe_load data_dir fs file_name st
   = (Ok data,
      State (config_cache st) (heap st) (trace st ++ [Probe longer; Open longer])
            (log st ++ [(INFO, "Loaded YAML data from file: " +:+ longer)])))
  ∧ (endswith (lower file_name) ".yaml" = true →
     let path := os_path_join data_dir file_name in
     let longer := os_path_join data_dir (file_name +:+ ".yml") in
     fs !! path = None →
     fs !! longer = Some (Readable content) →
     yaml_safe_load longer content = inr data →
     load_yaml yaml_safe_load data_dir fs file_name st
     = (Ok data,
        State (config_cache st) (heap st)
              (trace st ++ [Probe path; Probe longer; Open longer])
              (log st ++ [(INFO, "Loaded YAML data from file: " +:+ longer)]))).
Proof.
  split.
  - intros Hext longer Hfile Hparse.
    apply (load_yaml_at _ _ longer [Probe longer] content data); [|done..].
    unfold except_FileNotFoundError, try_except.
    rewrite get_file_path_appends by (done || by apply yml_not_yaml). fold longer.
    by rewrite bool_decide_eq_true_2 by (rewrite Hfile; eauto).
  - intros Hext path longer Hnone Hfile Hparse.
    assert (endswith (lower file_name) ".yml" = false) as Hyml.
    { destruct (endswith (lower file_name) ".yml") eqn:E; [|done].
      apply yml_not_yaml in E. congruence. }
    apply (load_yaml_at _ _ longer [Probe path; Probe longer] content data); [|done..].
    unfold except_FileNotFoundError, try_except.
    rewrite get_file_path_keeps by done. fold path.
    rewrite bool_decide_eq_false_2 by (rewrite Hnone; by intros [??]). simpl.
    rewrite get_file_path_appends by done. fold longer.
    rewrite bool_decide_eq_true_2 by (rewrite Hfile; eauto).
    destruct st as [c h t l]. unfold set_trace. simpl. by rewrite <- app_assoc.
Qed.

(** X10.  A file that is not there.  For a CSV or JSON name [load_test_data]
    raises [FileNotFoundError] with the full path, after looking for that
    path once.  For a YAML name it looks for the name and for the name with
    the other extension appended, and the error and the log give the file
    name as passed.  No file is opened. *)
Theorem missing_data_file file_name st :
  let path := os_path_join data_dir file_name in
  fs !! path = None →
  (endswith (lower file_name) ".csv" = true ∨ endswith (lower file_name) ".json" = true →
   load_test_data file_name st
   = (Raise (FileNotFoundError ("File not found: " +:+ path)),
      set_trace (λ t, t ++ [Probe path]) st))
  ∧ (endswith (lower file_name) ".yaml" = true →
     fs !! os_path_join data_dir (file_name +:+ ".yml") = None →
     load_test_data file_name st
     = (Raise (FileNotFoundError ("YAML file not found: " +:+ file_name)),
        State (config_cache st) (heap st)
              (trace st ++ [Probe path;
                            Probe (os_path_join data_dir (file_name +:+ ".yml"))])
              (log st ++ [(ERROR, "YAML file not found: " +:+ file_name)])))
  ∧ (endswith (lower file_name) ".yml" = true →
     fs !! os_path_join data_dir (file_name +:+ ".yaml") = None →
     load_test_data file_name st
     = (Raise (FileNotFoundError ("YAML file not found: " +:+ file_name)),
        State (config_cache st) (heap st)
              (trace st ++ [Probe (os_path_join data_dir (file_name +:+ ".yaml"));
                            Probe path])
              (log st ++ [(ERROR, "YAML file not found: " +:+ file_name)]))).
Proof.
  intros path Hnone.
  destruct (suffixes_exclusive (lower file_name)) as (Hjson & Hyaml & Hyml).
  assert (∀ p, fs !! p = None → bool_decide (is_Some (fs !! p)) = false) as Hno.
  { intros p Hp. rewrite Hp. apply bool_decide_eq_false_2. by intros [??]. }
  split; [|split].
  - intros [Hext | Hext]; unfold DataLoader.load_test_data.
    + rewrite Hext. unfold _load_test_data_from_csv, load_csv, bind.
      rewrite get_file_path_keeps by done. fold path. by rewrite (Hno _ Hnone).
    + rewrite (Hjson Hext), Hext. unfold _load_test_data_from_json, load_json, bind.
      rewrite get_file_path_keeps by done. fold path. by rewrite (Hno _ Hnone).
  - intros Hext Hnone2. destruct (Hyaml Hext) as [Hc Hj].
    assert (endswith (lower file_name) ".yml" = false) as Hy.
    { destruct (endswith (lower file_name) ".yml") eqn:E; [|done].
      apply yml_not_yaml in E. congruence. }
    unfold DataLoader.load_test_data. rewrite Hc, Hj, Hext. simpl.
    unfold _load_test_data_from_yaml, load_yaml, bind at 1, bind at 1.
    unfold except_FileNotFoundError, try_except.
    rewrite get_file_path_keeps by done. fold path. rewrite (Hno _ Hnone). simpl.
    rewrite get_file_path_appends by done. rewrite (Hno _ Hnone2). simpl.
    destruct st as [c h t l].
    unfold bind, logger_error, raise, set_log, set_trace. simpl.
    by rewrite <- app_assoc.
  - intros Hext Hnone2. destruct (Hyml Hext) as [Hc Hj].
    unfold DataLoader.load_test_data. rewrite Hc, Hj, Hext, orb_true_r.
    unfold _load_test_data_from_yaml, load_yaml, bind at 1, bind at 1.
    unfold except_FileNotFoundError, try_except.
    rewrite get_file_path_appends by (done || by apply yml_not_yaml).
    rewrite (Hno _ Hnone2). simpl.
    rewrite get_file_path_keeps by done. fold path. rewrite (Hno _ Hnone). simpl.
    destruct st as [c h t l].
    unfold bind, logger_error, raise, set_log, set_trace. simpl.
    by rewrite <- app_assoc.
Qed.

(** ** Documents that are lists, whatever their elements *)

(** What [load_test_data] computes from a document that is a list. *)
Lemma load_test_data_list file_name st fmt items st' :
  parsed file_name st fmt (PList items) st' →
  load_test_data file_name st
  = (match items with
     | [] => Ok []
     | first :: _ =>
         match py_keys first with
         | Ok keys =>
             leave (for_append (λ item, tuple_of (py_getitem item) keys) items [])
         | Raise e => Raise e
         end
     end, st').
Proof.
  destruct (suffixes_exclusive (lower file_name)) as (Hjson & Hyaml & Hyml).
  unfold DataLoader.load_test_data.
  intros H. apply parsed_inv in H. destruct fmt.
  - destruct H as (rows & Hdoc & Hext & Hload). injection Hdoc as ->.
    rewrite Hext. unfold _load_test_data_from_csv, bind. rewrite Hload.
    destruct rows as [|first rows]; [reflexivity|].
    change (PDict <$> first :: rows) with (PDict first :: (PDict <$> rows)).
    cbv beta iota. simpl py_keys. cbv beta iota.
    change (PDict first :: (PDict <$> rows)) with (PDict <$> first :: rows).
    by rewrite for_append_document.
  - destruct H as [Hext Hload]. rewrite (Hjson Hext), Hext.
    unfold _load_test_data_from_json, bind. rewrite Hload.
    destruct items as [|first items]; [reflexivity|].
    unfold lift. by destruct (py_keys first).
  - destruct H as [Hext Hload].
    assert (endswith (lower file_name) ".csv" = false
            ∧ endswith (lower file_name) ".json" = false) as [-> ->].
    { apply orb_true_iff in Hext as [?|?]; auto. }
    rewrite Hext. unfold _load_test_data_from_yaml, bind. rewrite Hload.
    destruct items as [|first items]; [reflexivity|].
    unfold lift. by destruct (py_keys first).
Qed.

Lemma for_append_length {A} (mk : A → result pytuple) items acc :
  match for_append mk items acc with
  | inr result => length result = length acc + length items
  | inl (e, _) => ∃ item, item ∈ items ∧ mk item = Raise e
  end.
Proof.
  revert acc. induction items as [|item items IH]; intros acc; simpl; [lia|].
  destruct (mk item) as [t|e] eqn:Hmk.
  - specialize (IH (acc ++ [t])). destruct (for_append mk items (acc ++ [t])) as [[e r]|r].
    + destruct IH as (bad & Hin & Hbad). exists bad. split; [by right|done].
    + rewrite IH, length_app. simpl. lia.
  - exists item. split; [by left|done].
Qed.

Lemma tuple_of_raises getitem keys e :
  tuple_of getitem keys = Raise e → ∃ key, key ∈ keys ∧ getitem key = Raise e.
Proof.
  induction keys as [|key keys IH]; simpl; [done|].
  destruct (getitem key) as [v|e'] eqn:Hget.
  - destruct (tuple_of getitem keys) as [t|e'']; [done|].
    intros [= <-]. destruct IH as (k & Hin & Hk); [done|].
    exists k. split; [by right|done].
  - intros [= <-]. exists key. split; [by left|done].
Qed.

(** X11.  The first element of the list must be a mapping.  When it is anything
    else, what is raised is the [AttributeError] of the failed [keys] call
    on it, not the [ValueError] that a document which is no list gets; only
    a JSON or YAML file can hold such a list. *)
Theorem first_element_must_be_a_mapping file_name st fmt first rest st' :
  parsed file_name st fmt (PList (first :: rest)) st' →
  (∀ d, first ≠ PDict d) →
  (fmt = JSON ∨ fmt = YAML)
  ∧ load_test_data file_name st
    = (Raise (AttributeError (type_name first) "keys"), st').
Proof.
  intros H Hfirst. split.
  - destruct fmt; auto. apply parsed_inv in H as (rows & Hdoc & _).
    destruct rows as [|row rows]; [done|]. injection Hdoc as -> _.
    by destruct (Hfirst row).
  - rewrite (load_test_data_list _ _ _ _ _ H).
    destruct first; try done. by destruct (Hfirst entries).
Qed.

(** X12.  A first record without keys.  Every element of the list then gives the
    empty tuple, whatever it is: nothing is ever read from it. *)
Theorem keyless_first_record file_name st fmt rest st' :
  parsed file_name st fmt (PList (PDict [] :: rest)) st' →
  load_test_data file_name st = (Ok (replicate (S (length rest)) []), st').
Proof.
  intros H. rewrite (load_test_data_list _ _ _ _ _ H). simpl py_keys.
  cbv beta iota. f_equal.
  assert (∀ items acc,
            for_append (λ item, tuple_of (py_getitem item) []) items acc
            = inr (acc ++ replicate (length items) [])) as Hloop.
  { induction items as [|item items IH]; intros acc; simpl.
    - by rewrite app_nil_r.
    - by rewrite IH, <- app_assoc. }
  by rewrite Hloop.
Qed.

(** X13.  A later element of a JSON list that is not a mapping.  The keys of
    a JSON object are strings, and nothing but a mapping can be subscripted
    with a string.  So when the first record has a key and the records
    before the element have all the keys of the first, the element is
    subscripted with the first key and [TypeError] is raised for its type;
    the tuples built so far are not returned.  (A YAML mapping may have
    numbers as keys, with which a list or a string can be subscripted; such
    documents are not covered.) *)
Theorem later_element_must_be_a_mapping file_name st first pre bad post st' :
  parsed file_name st JSON (PList (PDict first :: (PDict <$> pre) ++ bad :: post)) st' →
  first ≠ [] →
  Forall (has_keys (dict_keys first)) pre →
  (∀ d, bad ≠ PDict d) →
  load_test_data file_name st = (Raise (TypeError (type_name bad)), st').
Proof.
  intros H Hkeys Hpre Hbad.
  rewrite (load_test_data_list _ _ _ _ _ H). simpl py_keys. cbv beta iota.
  destruct (tuples_of_good (dict_keys first) (first :: pre)) as (ts & Hts & _).
  { constructor; [apply has_own_keys|done]. }
  change (PDict first :: (PDict <$> pre) ++ bad :: post)
    with ((PDict <$> first :: pre) ++ bad :: post).
  rewrite (for_append_raises _ (PDict <$> first :: pre) bad post ts
             (TypeError (type_name bad)) []); [done| |].
  - clear -Hts. induction Hts as [|r t rs ts Hr _ IH]; [constructor|].
    rewrite fmap_cons. by constructor.
  - destruct first as [|[k v] first]; [done|]. simpl.
    destruct bad; try done. by destruct (Hbad entries).
Qed.

(** X14.  What can come of a list read from a CSV or JSON file, where the
    keys of a record are strings (or, for the surplus fields of a CSV row,
    [None]).  [load_test_data] returns as many tuples as the list has
    elements, or raises [AttributeError] for a first element without [keys],
    [TypeError] for an element that is not a mapping, or [KeyError] for a
    key of the first record that a later mapping lacks.  It never raises
    [ValueError] on a list, and in every case the state is the one the
    format's loader left: a failed conversion writes no log record and
    touches no file.  (A YAML mapping may have numbers as keys, with which a
    list or a string can be subscripted; such documents are not covered.) *)
Theorem list_document_outcomes file_name st fmt items st' :
  fmt = CSV ∨ fmt = JSON →
  parsed file_name st fmt (PList items) st' →
  ∃ res,
    load_test_data file_name st = (res, st')
    ∧ match res with
      | Ok tuples => length tuples = length items
      | Raise (AttributeError type attr) =>
          ∃ first rest, items = first :: rest ∧ (∀ d, first ≠ PDict d)
                        ∧ type = type_name first ∧ attr = "keys"
      | Raise (TypeError type) =>
          ∃ first item, head items = Some (PDict first) ∧ first ≠ []
                        ∧ item ∈ items ∧ (∀ d, item ≠ PDict d)
                        ∧ type = type_name item
      | Raise (KeyError key) =>
          ∃ first record, head items = Some (PDict first) ∧ key ∈ dict_keys first
                          ∧ PDict record ∈ items ∧ dict_get record key = None
      | Raise _ => False
      end.
Proof.
  intros _ H. eexists. split; [apply (load_test_data_list _ _ _ _ _ H)|].
  destruct items as [|first items]; [done|].
  destruct first as [| | | | |first];
    try (simpl; eexists _, _; repeat split; done).
  simpl py_keys. cbv beta iota.
  pose proof (for_append_length
                (λ item, tuple_of (py_getitem item) (dict_keys first))
                (PDict first :: items) []) as Hloop.
  destruct (for_append _ (PDict first :: items) []) as [[e r]|r]; simpl; [|done].
  destruct Hloop as (item & Hin & Hitem).
  apply tuple_of_raises in Hitem as (key & Hkey & Hget).
  destruct item as [| | | | |record]; simpl in Hget; try injection Hget as <-;
    try (eexists first, _; split; [done|]; split;
         [by intros ->; apply elem_of_nil in Hkey|]; split; [exact Hin|]; done).
  unfold dict_getitem in Hget. destruct (dict_get record key) eqn:Hnone; [done|].
  injection Hget as <-. by exists first, record.
Qed.

(** ** A file that cannot be read or parsed *)

(** X15.  The file of the name is there, but [open] or the parser raises.
    [load_test_data] lets that very exception through, after one [ERROR]
    record that gives the path and the exception's text.  The file has been
    opened once, after the existence tests that lead to it: one for a name in
    [.csv], [.json] or [.yaml], two for a name in [.yml], which is first
    looked for with [.yaml] appended (no such file exists here).  No tuple
    is returned.  For a CSV or JSON file whose [open] raises
    [FileNotFoundError] the record is the "not found" one. *)
Theorem unreadable_data_is_reraised file_name st node e :
  let path := os_path_join data_dir file_name in
  let longer := os_path_join data_dir (file_name +:+ ".yaml") in
  let after probed msg :=
    (Raise (LibraryError e) : result (list pytuple),
     State (config_cache st) (heap st)
           (trace st ++ (Probe <$> probed) ++ [Open path])
           (log st ++ [(ERROR, msg)])) in
  fs !! path = Some node →
  (endswith (lower file_name) ".csv" = true →
   parse_with csv_DictReader (read_file fs path) = inl e →
   load_test_data file_name st
   = after [path]
       (if String.eqb (exc_class e) "FileNotFoundError"
        then "CSV file not found: " +:+ path
        else "Failed to load CSV file " +:+ path +:+ ": " +:+ exc_str e))
  ∧ (endswith (lower file_name) ".json" = true →
     parse_with json_load (read_file fs path) = inl e →
     load_test_data file_name st
     = after [path]
         (if String.eqb (exc_class e) "FileNotFoundError"
          then "JSON file not found: " +:+ path
          else "Failed to load JSON file " +:+ path +:+ ": " +:+ exc_str e))
  ∧ (endswith (lower file_name) ".yaml" = true →
     parse_with (yaml_safe_load path) (read_file fs path) = inl e →
     load_test_data file_name st
     = after [path] ("Failed to load YAML file " +:+ path +:+ ": " +:+ exc_str e))
  ∧ (endswith (lower file_name) ".yml" = true →
     fs !! longer = None →
     parse_with (yaml_safe_load path) (read_file fs path) = inl e →
     load_test_data file_name st
     = after [longer; path]
         ("Failed to load YAML file " +:+ path +:+ ": " +:+ exc_str e)).
Proof.
  intros path longer after Hnode.
  destruct (suffixes_exclusive (lower file_name)) as (Hjson & Hyaml & Hyml).
  assert (bool_decide (is_Some (fs !! path)) = true) as Hthere.
  { apply bool_decide_eq_true_2. rewrite Hnode. eauto. }
  unfold after. split; [|split; [|split]]; intros Hext;
    [intros Hparse..|intros Hnone Hparse]; unfold DataLoader.load_test_data.
  - rewrite Hext. unfold _load_test_data_from_csv, load_csv, bind at 1, bind at 1.
    rewrite get_file_path_keeps by done. fold path. rewrite Hthere.
    unfold bind at 1, open_. rewrite Hparse.
    destruct st as [c h t l].
    destruct (String.eqb (exc_class e) "FileNotFoundError");
      unfold bind, logger_error, raise, set_log, set_trace; simpl;
      by rewrite <- app_assoc.
  - rewrite (Hjson Hext), Hext.
    unfold _load_test_data_from_json, load_json, bind at 1, bind at 1.
    rewrite get_file_path_keeps by done. fold path. rewrite Hthere.
    unfold bind at 1, open_. rewrite Hparse.
    destruct st as [c h t l].
    destruct (String.eqb (exc_class e) "FileNotFoundError");
      unfold bind, logger_error, raise, set_log, set_trace; simpl;
      by rewrite <- app_assoc.
  - destruct (Hyaml Hext) as [-> ->]. rewrite Hext, orb_true_l.
    unfold _load_test_data_from_yaml, load_yaml, bind at 1, bind at 1.
    unfold except_FileNotFoundError, try_except.
    rewrite get_file_path_keeps by done. fold path. rewrite Hthere.
    unfold bind at 1, open_. rewrite Hparse.
    destruct st as [c h t l].
    unfold bind, logger_error, raise, set_log, set_trace; simpl.
    by rewrite <- app_assoc.
  - destruct (Hyml Hext) as [-> ->]. rewrite Hext, orb_true_r.
    unfold _load_test_data_from_yaml, load_yaml, bind at 1, bind at 1.
    unfold except_FileNotFoundError, try_except.
    rewrite get_file_path_appends by (done || by apply yml_not_yaml). fold longer.
    rewrite bool_decide_eq_false_2 by (rewrite Hnone; by intros [??]). simpl.
    rewrite get_file_path_keeps by done. fold path. rewrite Hthere.
    unfold bind at 1, open_. rewrite Hparse.
    destruct st as [c h t l].
    unfold bind, logger_error, raise, set_log, set_trace; simpl.
    by rewrite <- !app_assoc.
Qed.

(** ** Names with and without the extension *)

Lemma rev_app_acc (a acc : string) :
  String.rev_app a acc = String.rev a +:+ acc.
Proof.
  unfold String.rev. revert acc. induction a as [|c a IH]; intros acc; [done|].
  simpl String.rev_app. rewrite (IH (String c acc)), (IH (String c "")).
  by rewrite string_app_assoc.
Qed.

Lemma rev_append (a b : string) :
  String.rev (a +:+ b) = String.rev b +:+ String.rev a.
Proof.
  rewrite <- rev_app_acc. unfold String.rev. generalize "".
  induction a as [|c a IH]; intros acc; [done|].
  change (String c a +:+ b) with (String c (a +:+ b)). simpl String.rev_app.
  apply IH.
Qed.

Lemma lower_app (a b : string) : lower (a +:+ b) = lower a +:+ lower b.
Proof.
  induction a as [|c a IH]; [done|].
  change (String c a +:+ b) with (String c (a +:+ b)). simpl lower.
  rewrite IH. reflexivity.
Qed.

Lemma endswith_added (a ext : string) :
  lower ext = ext → endswith (lower (a +:+ ext)) ext = true.
Proof.
  intros Hext. unfold endswith. rewrite lower_app, Hext, rev_append. apply prefix_app.
Qed.

(** X16.  [load_csv] and [load_json] take a name with or without the extension:
    a name that lacks it and the same name with it are one file, and the two
    calls do the same.  [load_test_data] is stricter: a name with none of
    the four extensions is refused with [ValueError] before any file is
    looked for. *)
Theorem bare_name_is_the_same_file file_name st :
  (endswith (lower file_name) ".csv" = false →
   load_csv csv_DictReader data_dir fs file_name st
   = load_csv csv_DictReader data_dir fs (file_name +:+ ".csv") st)
  ∧ (endswith (lower file_name) ".json" = false →
     load_json json_load data_dir fs file_name st
     = load_json json_load data_dir fs (file_name +:+ ".json") st)
  ∧ (endswith (lower file_name) ".csv" = false →
     endswith (lower file_name) ".json" = false →
     endswith (lower file_name) ".yaml" = false →
     endswith (lower file_name) ".yml" = false →
     load_test_data file_name st
     = (Raise (ValueError ("Unsupported file format for test data: " +:+ file_name)),
        st)).
Proof.
  split; [|split].
  - intros Hext.
    assert (get_path file_name (Some ".csv") st
            = get_path (file_name +:+ ".csv") (Some ".csv") st) as Hpath.
    { rewrite get_file_path_appends by done.
      by rewrite get_file_path_keeps by by apply endswith_added. }
    unfold load_csv, bind. by rewrite Hpath.
  - intros Hext.
    assert (get_path file_name (Some ".json") st
            = get_path (file_name +:+ ".json") (Some ".json") st) as Hpath.
    { rewrite get_file_path_appends by done.
      by rewrite get_file_path_keeps by by apply endswith_added. }
    unfold load_json, bind. by rewrite Hpath.
  - intros Hc Hj Hy Hm. unfold DataLoader.load_test_data. by rewrite Hc, Hj, Hy, Hm.
Qed.
End more_data_properties.

(** * Properties of [main] *)

Section main_properties.
Variable yaml_safe_load : string → string → lib_exn + pyval.
Variable json_load : string → lib_exn + pyval.
Variable package_config : string.
Variable os_path_abspath : string → string.
Variable str : exn → string.

Local Abbreviation main fs create_browser :=
  (Main.main yaml_safe_load json_load package_config fs create_browser
             os_path_abspath str).
Local Abbreviation load :=
  (ConfigLoader.load_config yaml_safe_load json_load package_config).

Local Abbreviation failed := (failed str).

Lemma not_resolves fs config_name environment :
  ¬ resolves fs package_config config_name environment →
  select fs package_config (config_name +:+ "_" +:+ environment) = None
  ∧ (environment = "default" ∨ select fs package_config config_name = None).
Proof.
  unfold resolves. intros H. split.
  - destruct (select fs package_config (config_name +:+ "_" +:+ environment));
      [|done]. destruct H. by left.
  - destruct (decide (environment = "default")) as [|Hne]; [by left|]. right.
    destruct (select fs package_config config_name); [|done].
    destruct H. by right.
Qed.

(** What the body of the [try] makes of the configuration. *)
Lemma main_eq fs create_browser a st :
  main fs create_browser a st
  = let st0 := set_cache (λ _, ∅)
                 (set_log (λ l, l ++ [(INFO, "Starting UI Automation Framework")]) st) in
    let fail e st' := (Ok 1%Z, set_log (λ l, l ++ [failed e]) st') in
    let create st1 :=
      match create_browser (Main.browser a) (Main.headless a) st1 with
      | (Ok _, st2) => (Ok 0%Z, set_log (λ l, l ++ [completed]) st2)
      | (Raise e, st2) => fail e st2
      end in
    if Main.truthy (Main.config a)
    then create (set_log (λ l, l ++ [(INFO, "Loading custom config from " +:+
                                             os_path_abspath (default "" (Main.config a)))])
                   st0)
    else
      match load fs "browser" (Main.env a)
              (set_log (λ l, l ++ [(INFO, "Loading default config for environment: "
                                          +:+ Main.env a)]) st0) with
      | (Raise e, st1) => fail e st1
      | (Ok _, st1) =>
          match load fs "test" (Main.env a) st1 with
          | (Raise e, st2) => fail e st2
          | (Ok _, st2) => create st2
          end
      end.
Proof.
  unfold Main.main, bind at 1, try_except, logger_info at 1.
  unfold bind at 1, Main.new_ConfigLoader.
  change (ConfigLoader.init None package_config) with package_config.
  unfold ConfigLoader.get_browser_config, ConfigLoader.get_test_config.
  cbv zeta. destruct (Main.truthy (Main.config a)).
  - unfold bind at 1, logger_info at 1. unfold bind at 1.
    destruct (create_browser _ _ _) as [[[]|e] st2]; reflexivity.
  - unfold bind at 1. unfold bind at 1, logger_info at 1. unfold bind at 1.
    destruct (load fs "browser" _ _) as [[r1|e] st1]; [|reflexivity].
    unfold bind at 1.
    destruct (load fs "test" _ _) as [[r2|e] st2]; [|reflexivity].
    unfold ret at 1. unfold bind at 1.
    destruct (create_browser _ _ _) as [[[]|e] st3]; reflexivity.
Qed.

(** X18.  With [--config] given, no configuration is loaded: the run is the same
    whatever the files, the configuration directory and the parsers are. *)
Theorem config_option_reads_no_file fs create_browser a st
    yaml_safe_load' json_load' package_config' fs' :
  Main.truthy (Main.config a) = true →
  main fs create_browser a st
  = Main.main yaml_safe_load' json_load' package_config' fs' create_browser
              os_path_abspath str a st.
Proof.
  intros Hconfig. unfold Main.main, bind at 1 4, try_except, logger_info at 1 5.
  unfold bind at 1 5, Main.new_ConfigLoader. by rewrite Hconfig.
Qed.

(** X19.  Without [--config], the browser and the test configuration of the
    environment must both have a file.  When one of them has none, the exit
    code is 1 and the browser factory is not called: the run is the same
    whatever the factory would do.  When it is the browser configuration
    that has no file, the exception is the one of [load_config] for it and
    no file has been opened. *)
Theorem unresolved_configuration_creates_no_browser fs a st :
  Main.truthy (Main.config a) = false →
  ¬ resolves fs package_config "browser" (Main.env a)
  ∨ ¬ resolves fs package_config "test" (Main.env a) →
  ∃ e st',
    (∀ create_browser, main fs create_browser a st = (Ok 1%Z, st'))
    ∧ last (log st') = Some (failed e)
    ∧ (¬ resolves fs package_config "browser" (Main.env a) →
       e = ConfigLoader.not_found "browser" (Main.env a)
       ∧ opened (drop (length (trace st)) (trace st')) = []).
Proof.
  intros Hconfig Hno.
  set (st0 := set_log (λ l, l ++ [(INFO, "Loading default config for environment: "
                                         +:+ Main.env a)])
                (set_cache (λ _, ∅)
                   (set_log (λ l, l ++ [(INFO, "Starting UI Automation Framework")]) st))).
  assert (config_cache st0 = ∅) as Hcache by done.
  assert (trace st0 = trace st) as Htrace by done.
  destruct (decide (resolves fs package_config "browser" (Main.env a)))
    as [Hbrowser|Hbrowser].
  - destruct Hno as [?|Htest]; [done|].
    apply not_resolves in Htest as [Hsel Hdef].
    destruct (load fs "browser" (Main.env a) st0) as [[r1|e] st1] eqn:Hload.
    + assert (config_cache st1 !! ConfigLoader.cache_key "test" (Main.env a) = None)
        as Hmiss.
      { destruct (load_step _ _ _ _ _ _ _ _ _ Hload)
          as [[-> _]|(_ & _ & _ & _ & -> & _)].
        - by rewrite Hcache.
        - rewrite Hcache. by apply lookup_insert_None. }
      destruct (load_not_found yaml_safe_load json_load package_config fs "test"
                  (Main.env a) st1 Hmiss Hsel Hdef) as (st2 & Htest & _).
      exists (ConfigLoader.not_found "test" (Main.env a)),
             (set_log (λ l, l ++ [failed (ConfigLoader.not_found "test" (Main.env a))])
                st2).
      split; [|split; [apply last_snoc|done]].
      intros create_browser. rewrite main_eq. cbv zeta. rewrite Hconfig.
      fold st0. rewrite Hload, Htest. reflexivity.
    + exists e, (set_log (λ l, l ++ [failed e]) st1).
      split; [|split; [apply last_snoc|done]].
      intros create_browser. rewrite main_eq. cbv zeta. rewrite Hconfig.
      fold st0. rewrite Hload. reflexivity.
  - apply not_resolves in Hbrowser as [Hsel Hdef].
    destruct (load_not_found yaml_safe_load json_load package_config fs "browser"
                (Main.env a) st0) as (st1 & Hload & _ & Hev); [by rewrite Hcache|done..|].
    exists (ConfigLoader.not_found "browser" (Main.env a)),
           (set_log (λ l, l ++ [failed (ConfigLoader.not_found "browser" (Main.env a))])
              st1).
    split; [|split; [apply last_snoc|]].
    + intros create_browser. rewrite main_eq. cbv zeta. rewrite Hconfig.
      fold st0. rewrite Hload. reflexivity.
    + intros _. split; [done|]. simpl trace. rewrite Hev, Htrace.
      rewrite drop_app_length. unfold opened. rewrite omap_app.
      destruct (String.eqb (Main.env a) "default"); reflexivity.
Qed.
End main_properties.
(** ** The further configuration properties on the fixtures *)

Lemma environment_file_wins_witness :
  let fs := Fixtures.files [("cfg/app_dev.yaml", Fixtures.yaml_firefox);
                            ("cfg/app.yaml", Fixtures.yaml_chrome)] in
  config_cache fresh !! ConfigLoader.cache_key "app" "dev" = None
  ∧ select fs "cfg" "app_dev" = Some ("cfg/app_dev.yaml", AsYAML)
  ∧ fs !! "cfg/app_dev.yaml" = Some (Readable Fixtures.yaml_firefox)
  ∧ ∃ r st' evs,
      Fixtures.load_config fs "app" "dev" fresh = (Ok r, st')
      ∧ deref st' r = Some Fixtures.firefox
      ∧ config_cache st' !! ConfigLoader.cache_key "app" "dev" = Some r
      ∧ trace st' = evs
      ∧ last evs = Some (Open "cfg/app_dev.yaml")
      ∧ Forall (λ ev, event_path ev ∉ candidates "cfg" "app") evs.
Proof.
  split; [reflexivity|]. split; [vm_compute; reflexivity|].
  split; [vm_compute; reflexivity|].
  apply (environment_file_wins Fixtures.yaml_safe_load Fixtures.json_load "cfg"
           (Fixtures.files [("cfg/app_dev.yaml", Fixtures.yaml_firefox);
                            ("cfg/app.yaml", Fixtures.yaml_chrome)])
           "app" "dev" fresh "cfg/app_dev.yaml" AsYAML Fixtures.yaml_firefox
           Fixtures.firefox);
    [reflexivity|vm_compute; reflexivity..|discriminate].
Defined.

Lemma null_environment_file_is_no_file_witness :
  let fs := Fixtures.files [("cfg/app_dev.yaml", Fixtures.yaml_empty);
                            ("cfg/app.yaml", Fixtures.yaml_chrome)] in
  config_cache fresh !! ConfigLoader.cache_key "app" "dev" = None
  ∧ select fs "cfg" "app_dev" = Some ("cfg/app_dev.yaml", AsYAML)
  ∧ Fixtures.yaml_safe_load "cfg/app_dev.yaml" Fixtures.yaml_empty = inr PNone
  ∧ select fs "cfg" "app" = Some ("cfg/app.yaml", AsYAML)
  ∧ ∃ r st', Fixtures.load_config fs "app" "dev" fresh = (Ok r, st')
             ∧ deref st' r = Some Fixtures.chrome
             ∧ config_cache st' !! ConfigLoader.cache_key "app" "dev" = Some r
             ∧ opened (drop (length (trace fresh)) (trace st'))
               = ["cfg/app_dev.yaml"; "cfg/app.yaml"].
Proof.
  split; [reflexivity|]. split; [vm_compute; reflexivity|].
  split; [vm_compute; reflexivity|]. split; [vm_compute; reflexivity|].
  destruct (null_environment_file_is_no_file Fixtures.yaml_safe_load
              Fixtures.json_load "cfg"
              (Fixtures.files [("cfg/app_dev.yaml", Fixtures.yaml_empty);
                               ("cfg/app.yaml", Fixtures.yaml_chrome)])
              "app" "dev" fresh "cfg/app_dev.yaml" AsYAML Fixtures.yaml_empty)
    as (_ & _ & Hfall); [reflexivity|vm_compute; reflexivity..|].
  apply (Hfall ltac:(discriminate) "cfg/app.yaml" AsYAML Fixtures.yaml_chrome
           Fixtures.chrome); [vm_compute; reflexivity..|discriminate].
Defined.

Lemma unreadable_file_stops_the_search_witness :
  let is_dir := LibExn "IsADirectoryError" "[Errno 21] Is a directory: 'cfg/app_dev.yaml'" in
  let fs : filesystem :=
    {[ "cfg/app_dev.yaml" := Unreadable is_dir;
       "cfg/app_dev.json" := Readable Fixtures.json_chrome;
       "cfg/app.yaml" := Readable Fixtures.yaml_chrome ]} in
  config_cache fresh !! ConfigLoader.cache_key "app" "dev" = None
  ∧ select fs "cfg" "app_dev" = Some ("cfg/app_dev.yaml", AsYAML)
  ∧ fs !! "cfg/app_dev.yaml" = Some (Unreadable is_dir)
  ∧ Fixtures.load_config fs "app" "dev" fresh
    = (Raise (LibraryError is_dir),
       State ∅ [] [Probe "cfg/app_dev.yaml"; Open "cfg/app_dev.yaml"]
             [(ERROR, "Failed to load YAML configuration from cfg/app_dev.yaml: [Errno 21] Is a directory: 'cfg/app_dev.yaml'")]).
Proof.
  split; [reflexivity|]. split; [vm_compute; reflexivity|].
  split; [vm_compute; reflexivity|].
  rewrite (unreadable_file_stops_the_search Fixtures.yaml_safe_load
             Fixtures.json_load "cfg" _ "app" "dev" fresh "cfg/app_dev.yaml" AsYAML
             (LibExn "IsADirectoryError" "[Errno 21] Is a directory: 'cfg/app_dev.yaml'"));
    [vm_compute; reflexivity|reflexivity|vm_compute; reflexivity..].
Defined.

Lemma environment_url_is_settled_once_witness :
  let fs := Fixtures.files [("cfg/environment_dev.yaml", Fixtures.yaml_rows)] in
  let fixed := Fixtures.files [("cfg/environment_dev.yaml", Fixtures.yaml_chrome)] in
  let answer := Raise (AttributeError "list" "get") in
  config_cache fresh !! ConfigLoader.cache_key "environment" "dev" = None
  ∧ select fs "cfg" "environment_dev" = Some ("cfg/environment_dev.yaml", AsYAML)
  ∧ Fixtures.yaml_safe_load "cfg/environment_dev.yaml" Fixtures.yaml_rows
    = inr (as_document Fixtures.rows_12_34)
  ∧ ∃ st', ConfigLoader.get_environment_url Fixtures.yaml_safe_load
             Fixtures.json_load "cfg" fs "dev" fresh = (answer, st')
           ∧ ConfigLoader.get_environment_url Fixtures.yaml_safe_load
               Fixtures.json_load "cfg" fixed "dev" st' = (answer, st').
Proof.
  split; [reflexivity|]. split; [vm_compute; reflexivity|].
  split; [vm_compute; reflexivity|].
  destruct (environment_url_is_settled_once Fixtures.yaml_safe_load
              Fixtures.json_load "cfg"
              (Fixtures.files [("cfg/environment_dev.yaml", Fixtures.yaml_rows)])
              "dev" fresh "cfg/environment_dev.yaml" AsYAML Fixtures.yaml_rows
              (as_document Fixtures.rows_12_34))
    as (st' & Hfirst & Hlater);
    [reflexivity|vm_compute; reflexivity..|discriminate|].
  exists st'. split; [exact Hfirst|].
  exact (Hlater [] (Fixtures.files [("cfg/environment_dev.yaml", Fixtures.yaml_chrome)])).
Defined.

Lemma keys_of_plain_names_differ_witness :
  occurs_in "_" "browser" = false
  ∧ occurs_in "_" "test" = false
  ∧ ("browser", "dev") ≠ ("test", "dev")
  ∧ ConfigLoader.cache_key "browser" "dev" ≠ ConfigLoader.cache_key "test" "dev".
Proof.
  split; [reflexivity|]. split; [reflexivity|]. split; [discriminate|].
  apply keys_of_plain_names_differ; [reflexivity|reflexivity|discriminate].
Defined.

(** ** The further data properties on the fixtures *)

Lemma bare_yaml_name_resolution_witness :
  let fs := Fixtures.files [("data/users.yaml", Fixtures.yaml_rows);
                            ("data/users.yml", Fixtures.yaml_object)] in
  endswith (lower "users") ".yaml" = false
  ∧ endswith (lower "users") ".yml" = false
  ∧ DataLoader.load_yaml Fixtures.yaml_safe_load "data" fs "users" fresh
    = (Ok (as_document Fixtures.rows_12_34),
       State ∅ [] [Probe "data/users.yaml"; Open "data/users.yaml"]
             [(INFO, "Loaded YAML data from file: data/users.yaml")]).
Proof.
  split; [reflexivity|]. split; [reflexivity|].
  apply (proj1 (bare_yaml_name_resolution Fixtures.yaml_safe_load "data"
                  (Fixtures.files [("data/users.yaml", Fixtures.yaml_rows);
                                   ("data/users.yml", Fixtures.yaml_object)])
                  "users" fresh eq_refl eq_refl) Fixtures.yaml_rows);
    vm_compute; reflexivity.
Defined.

Lemma suffixed_file_stands_in_witness :
  let fs := Fixtures.files [("data/users.yml", Fixtures.yaml_object);
                            ("data/users.yml.yaml", Fixtures.yaml_rows)] in
  endswith (lower "users.yml") ".yml" = true
  ∧ DataLoader.load_yaml Fixtures.yaml_safe_load "data" fs "users.yml" fresh
    = (Ok (as_document Fixtures.rows_12_34),
       State ∅ [] [Probe "data/users.yml.yaml"; Open "data/users.yml.yaml"]
             [(INFO, "Loaded YAML data from file: data/users.yml.yaml")]).
Proof.
  split; [reflexivity|].
  apply (proj1 (suffixed_file_stands_in Fixtures.yaml_safe_load "data"
                  (Fixtures.files [("data/users.yml", Fixtures.yaml_object);
                                   ("data/users.yml.yaml", Fixtures.yaml_rows)])
                  "users.yml" fresh Fixtures.yaml_rows
                  (as_document Fixtures.rows_12_34)) eq_refl);
    vm_compute; reflexivity.
Defined.

Lemma missing_data_file_witness :
  let fs := Fixtures.files [("data/users.json", Fixtures.json_rows)] in
  fs !! os_path_join "data" "users.csv" = None
  ∧ endswith (lower "users.csv") ".csv" = true
  ∧ Fixtures.load_test_data fs "users.csv" fresh
    = (Raise (FileNotFoundError "File not found: data/users.csv"),
       State ∅ [] [Probe "data/users.csv"] []).
Proof.
  split; [vm_compute; reflexivity|]. split; [reflexivity|].
  apply (proj1 (missing_data_file Fixtures.csv_DictReader Fixtures.json_load
                  Fixtures.yaml_safe_load "data"
                  (Fixtures.files [("data/users.json", Fixtures.json_rows)])
                  "users.csv" fresh ltac:(vm_compute; reflexivity))).
  left. reflexivity.
Defined.

Lemma first_element_must_be_a_mapping_witness :
  let fs := Fixtures.files [("data/users.json", MoreFixtures.json_number_first)] in
  let st' := (MoreFixtures.load_test_data fs "users.json" fresh).2 in
  parsed Fixtures.csv_DictReader MoreFixtures.json_load Fixtures.yaml_safe_load
         "data" fs "users.json" fresh JSON
         (PList [PInt 1; PDict [(KStr "a", PStr "1")]]) st'
  ∧ (∀ d, PInt 1 ≠ PDict d)
  ∧ MoreFixtures.load_test_data fs "users.json" fresh
    = (Raise (AttributeError "int" "keys"), st').
Proof.
  assert (parsed Fixtures.csv_DictReader MoreFixtures.json_load Fixtures.yaml_safe_load
            "data" (Fixtures.files [("data/users.json", MoreFixtures.json_number_first)])
            "users.json" fresh JSON (PList [PInt 1; PDict [(KStr "a", PStr "1")]])
            (MoreFixtures.load_test_data
               (Fixtures.files [("data/users.json", MoreFixtures.json_number_first)])
               "users.json" fresh).2) as Hparsed.
  { constructor; vm_compute; reflexivity. }
  split; [exact Hparsed|]. split; [discriminate|].
  exact (proj2 (first_element_must_be_a_mapping Fixtures.csv_DictReader
                  MoreFixtures.json_load Fixtures.yaml_safe_load "data" _ _ _ _ _ _ _
                  Hparsed ltac:(discriminate))).
Defined.

Lemma keyless_first_record_witness :
  let fs := Fixtures.files [("data/users.json", MoreFixtures.json_keyless_first)] in
  let st' := (MoreFixtures.load_test_data fs "users.json" fresh).2 in
  parsed Fixtures.csv_DictReader MoreFixtures.json_load Fixtures.yaml_safe_load
         "data" fs "users.json" fresh JSON (PList [PDict []; PInt 1; PStr "x"]) st'
  ∧ MoreFixtures.load_test_data fs "users.json" fresh = (Ok [[]; []; []], st').
Proof.
  assert (parsed Fixtures.csv_DictReader MoreFixtures.json_load Fixtures.yaml_safe_load
            "data" (Fixtures.files [("data/users.json", MoreFixtures.json_keyless_first)])
            "users.json" fresh JSON (PList [PDict []; PInt 1; PStr "x"])
            (MoreFixtures.load_test_data
               (Fixtures.files [("data/users.json", MoreFixtures.json_keyless_first)])
               "users.json" fresh).2) as Hparsed.
  { constructor; vm_compute; reflexivity. }
  split; [exact Hparsed|].
  exact (keyless_first_record Fixtures.csv_DictReader MoreFixtures.json_load
           Fixtures.yaml_safe_load "data" _ _ _ _ _ _ Hparsed).
Defined.

Lemma later_element_must_be_a_mapping_witness :
  let fs := Fixtures.files [("data/users.json", MoreFixtures.json_number_second)] in
  let st' := (MoreFixtures.load_test_data fs "users.json" fresh).2 in
  let first := [(KStr "a", PStr "1")] in
  parsed Fixtures.csv_DictReader MoreFixtures.json_load Fixtures.yaml_safe_load
         "data" fs "users.json" fresh JSON
         (PList (PDict first :: (PDict <$> []) ++ PInt 2 :: [])) st'
  ∧ first ≠ []
  ∧ (∀ d, PInt 2 ≠ PDict d)
  ∧ MoreFixtures.load_test_data fs "users.json" fresh
    = (Raise (TypeError "int"), st').
Proof.
  assert (parsed Fixtures.csv_DictReader MoreFixtures.json_load Fixtures.yaml_safe_load
            "data" (Fixtures.files [("data/users.json", MoreFixtures.json_number_second)])
            "users.json" fresh JSON
            (PList (PDict [(KStr "a", PStr "1")] :: (PDict <$> []) ++ PInt 2 :: []))
            (MoreFixtures.load_test_data
               (Fixtures.files [("data/users.json", MoreFixtures.json_number_second)])
               "users.json" fresh).2) as Hparsed.
  { constructor; vm_compute; reflexivity. }
  split; [exact Hparsed|]. split; [discriminate|]. split; [discriminate|].
  exact (later_element_must_be_a_mapping Fixtures.csv_DictReader
           MoreFixtures.json_load Fixtures.yaml_safe_load "data" _ _ _ _ _ _ _ _
           Hparsed ltac:(discriminate) (List.Forall_nil _) ltac:(discriminate)).
Defined.

Lemma list_document_outcomes_witness :
  let fs := Fixtures.files [("data/users.json", Fixtures.json_short_second)] in
  let st' := (Fixtures.load_test_data fs "users.json" fresh).2 in
  let items := [PDict (Fixtures.row "1" "2"); PDict [(KStr "a", PStr "3")]] in
  parsed Fixtures.csv_DictReader Fixtures.json_load Fixtures.yaml_safe_load
         "data" fs "users.json" fresh JSON (PList items) st'
  ∧ ∃ res,
      Fixtures.load_test_data fs "users.json" fresh = (res, st')
      ∧ match res with
        | Ok tuples => length tuples = length items
        | Raise (AttributeError type attr) =>
            ∃ first rest, items = first :: rest ∧ (∀ d, first ≠ PDict d)
                          ∧ type = type_name first ∧ attr = "keys"
        | Raise (TypeError type) =>
            ∃ first item, head items = Some (PDict first) ∧ first ≠ []
                          ∧ item ∈ items ∧ (∀ d, item ≠ PDict d)
                          ∧ type = type_name item
        | Raise (KeyError key) =>
            ∃ first record, head items = Some (PDict first) ∧ key ∈ dict_keys first
                            ∧ PDict record ∈ items ∧ dict_get record key = None
        | Raise _ => False
        end.
Proof.
  assert (parsed Fixtures.csv_DictReader Fixtures.json_load Fixtures.yaml_safe_load
            "data" (Fixtures.files [("data/users.json", Fixtures.json_short_second)])
            "users.json" fresh JSON
            (PList [PDict (Fixtures.row "1" "2"); PDict [(KStr "a", PStr "3")]])
            (Fixtures.load_test_data
               (Fixtures.files [("data/users.json", Fixtures.json_short_second)])
               "users.json" fresh).2) as Hparsed.
  { constructor; vm_compute; reflexivity. }
  split; [exact Hparsed|].
  exact (list_document_outcomes Fixtures.csv_DictReader Fixtures.json_load
           Fixtures.yaml_safe_load "data" _ _ _ _ _ _ (or_intror eq_refl) Hparsed).
Defined.

Lemma unreadable_data_is_reraised_witness :
  let is_dir := LibExn "IsADirectoryError" "[Errno 21] Is a directory: 'data/users.yml'" in
  let fs : filesystem :=
    {[ "data/users.json" := Readable Fixtures.json_garbage;
       "data/users.yml" := Unreadable is_dir ]} in
  let e := LibExn "JSONDecodeError" "Expecting value: line 1 column 1 (char 0)" in
  fs !! os_path_join "data" "users.json" = Some (Readable Fixtures.json_garbage)
  ∧ endswith (lower "users.json") ".json" = true
  ∧ parse_with Fixtures.json_load (read_file fs (os_path_join "data" "users.json"))
    = inl e
  ∧ Fixtures.load_test_data fs "users.json" fresh
    = (Raise (LibraryError e),
       State ∅ [] [Probe "data/users.json"; Open "data/users.json"]
             [(ERROR, "Failed to load JSON file data/users.json: Expecting value: line 1 column 1 (char 0)")])
  ∧ fs !! os_path_join "data" "users.yml" = Some (Unreadable is_dir)
  ∧ endswith (lower "users.yml") ".yml" = true
  ∧ fs !! os_path_join "data" "users.yml.yaml" = None
  ∧ Fixtures.load_test_data fs "users.yml" fresh
    = (Raise (LibraryError is_dir),
       State ∅ []
             [Probe "data/users.yml.yaml"; Probe "data/users.yml"; Open "data/users.yml"]
             [(ERROR, "Failed to load YAML file data/users.yml: [Errno 21] Is a directory: 'data/users.yml'")]).
Proof.
  set (is_dir := LibExn "IsADirectoryError"
                        "[Errno 21] Is a directory: 'data/users.yml'").
  set (fs := ({[ "data/users.json" := Readable Fixtures.json_garbage;
                 "data/users.yml" := Unreadable is_dir ]} : filesystem)).
  assert (fs !! os_path_join "data" "users.json"
          = Some (Readable Fixtures.json_garbage)) as Hjson
    by (vm_compute; reflexivity).
  assert (fs !! os_path_join "data" "users.yml" = Some (Unreadable is_dir)) as Hyml
    by (vm_compute; reflexivity).
  split; [exact Hjson|]. split; [reflexivity|].
  split; [vm_compute; reflexivity|].
  split.
  { apply (proj1 (proj2 (unreadable_data_is_reraised Fixtures.csv_DictReader
                           Fixtures.json_load Fixtures.yaml_safe_load "data" fs
                           "users.json" fresh (Readable Fixtures.json_garbage)
                           (LibExn "JSONDecodeError"
                                   "Expecting value: line 1 column 1 (char 0)")
                           Hjson)));
      vm_compute; reflexivity. }
  split; [exact Hyml|]. split; [reflexivity|].
  split; [vm_compute; reflexivity|].
  apply (proj2 (proj2 (proj2 (unreadable_data_is_reraised Fixtures.csv_DictReader
                                Fixtures.json_load Fixtures.yaml_safe_load "data" fs
                                "users.yml" fresh (Unreadable is_dir) is_dir Hyml))));
    vm_compute; reflexivity.
Defined.

Lemma bare_name_is_the_same_file_witness :
  let fs := Fixtures.files [("data/users.csv", Fixtures.csv_rows)] in
  endswith (lower "users") ".csv" = false
  ∧ DataLoader.load_csv Fixtures.csv_DictReader "data" fs "users" fresh
    = DataLoader.load_csv Fixtures.csv_DictReader "data" fs "users.csv" fresh
  ∧ (DataLoader.load_csv Fixtures.csv_DictReader "data" fs "users" fresh).1
    = Ok Fixtures.rows_12_34
  ∧ Fixtures.load_test_data fs "users" fresh
    = (Raise (ValueError "Unsupported file format for test data: users"), fresh).
Proof.
  destruct (bare_name_is_the_same_file Fixtures.csv_DictReader Fixtures.json_load
              Fixtures.yaml_safe_load "data"
              (Fixtures.files [("data/users.csv", Fixtures.csv_rows)]) "users" fresh)
    as (Hcsv & _ & Hrefused).
  split; [reflexivity|]. split; [exact (Hcsv eq_refl)|].
  split; [vm_compute; reflexivity|].
  exact (Hrefused eq_refl eq_refl eq_refl eq_refl).
Defined.

(** ** The properties of [main] on the fixtures *)

Lemma config_option_reads_no_file_witness :
  let a := Main.Args "chrome" false "dev" (Some "my.yaml") in
  let fs := Fixtures.files [("cfg/browser_dev.yaml", Fixtures.yaml_chrome);
                            ("cfg/test_dev.yaml", Fixtures.yaml_firefox)] in
  Main.truthy (Main.config a) = true
  ∧ MoreFixtures.main fs MoreFixtures.browser_starts MoreFixtures.os_path_abspath
      MoreFixtures.str a fresh
    = MoreFixtures.main ∅ MoreFixtures.browser_starts MoreFixtures.os_path_abspath
        MoreFixtures.str a fresh
  ∧ MoreFixtures.main ∅ MoreFixtures.browser_starts MoreFixtures.os_path_abspath
      MoreFixtures.str a fresh
    = (Ok 0%Z,
       State ∅ [] []
             [(INFO, "Starting UI Automation Framework");
              (INFO, "Loading custom config from /work/my.yaml");
              completed]).
Proof.
  split; [reflexivity|]. split; [|vm_compute; reflexivity].
  apply (config_option_reads_no_file Fixtures.yaml_safe_load Fixtures.json_load "cfg"
           MoreFixtures.os_path_abspath MoreFixtures.str). reflexivity.
Defined.

Lemma unresolved_configuration_creates_no_browser_witness :
  let a := Main.Args "chrome" false "dev" None in
  let fs := Fixtures.files [("cfg/browser.yaml", Fixtures.yaml_chrome)] in
  Main.truthy (Main.config a) = false
  ∧ ¬ resolves fs "cfg" "test" "dev"
  ∧ ∃ e st',
      (∀ create_browser,
         MoreFixtures.main fs create_browser MoreFixtures.os_path_abspath
           MoreFixtures.str a fresh = (Ok 1%Z, st'))
      ∧ last (log st') = Some (failed MoreFixtures.str e).
Proof.
  assert (¬ resolves (Fixtures.files [("cfg/browser.yaml", Fixtures.yaml_chrome)])
            "cfg" "test" "dev") as Hno.
  { intros [H|[_ H]]; by apply H. }
  split; [reflexivity|]. split; [exact Hno|].
  destruct (unresolved_configuration_creates_no_browser Fixtures.yaml_safe_load
              Fixtures.json_load "cfg" MoreFixtures.os_path_abspath MoreFixtures.str
              (Fixtures.files [("cfg/browser.yaml", Fixtures.yaml_chrome)])
              (Main.Args "chrome" false "dev" None) fresh eq_refl (or_intror Hno))
    as (e & st' & Hrun & Hlast & _).
  by exists e, st'.
Defined.
